(** * Node OS update client of the machine-config daemon

    A shallow embedding of [pkg/daemon]'s [NodeUpdaterClient] with its two
    implementations: [RpmOstreeClient] (rpm-ostree backed) and
    [notCoreOSClient] (the stub for hosts that are not a CoreOS variant).

    Go strings and byte slices are byte sequences: both are [string] here
    (a list of 8-bit [ascii]).  Every external effect of the package (running
    a program, inspecting an image, stat of a file, reading a file) is an
    [event]; a computation threads the list of events performed so far, and
    the answers of the outside world are a function of that history. *)

From Stdlib Require Import String Ascii List ZArith Lia Bool Arith.
From Stdlib Require Import DecimalString.
From stdpp Require Import base option gmap strings.
Import ListNotations.

Local Open Scope string_scope.
Local Open Scope list_scope.
Local Open Scope nat_scope.

(** ** The parts of Go's [strings] package that the daemon uses *)

Module GoStrings.

(** [strings.HasPrefix(s, prefix)]. *)
Definition HasPrefix (s pre : string) : bool := String.prefix pre s.

(** [s[n:]] for [n <= len(s)]. *)
Fixpoint sliceFrom (n : nat) (s : string) : string :=
  match n, s with
  | O, _ => s
  | S n', String _ s' => sliceFrom n' s'
  | S _, EmptyString => EmptyString
  end.

(** [strings.Join(elems, sep)]. *)
Fixpoint Join (elems : list string) (sep : string) : string :=
  match elems with
  | [] => ""
  | [e] => e
  | e :: rest => e +:+ sep +:+ Join rest sep
  end.

(** [strings.Split(s, sep)] for a separator of one byte.  The result is never
    empty: the empty string splits into one empty string. *)
Fixpoint Split (s : string) (sep : ascii) : list string :=
  match s with
  | EmptyString => [""]
  | String c s' =>
      if Ascii.eqb c sep then "" :: Split s' sep
      else match Split s' sep with
           | [] => [String c ""]
           | w :: ws => String c w :: ws
           end
  end.

(** [strings.FieldsFunc(s, f)]: the maximal runs of characters that do not
    satisfy [f].  Go calls [f] once per character, from left to right, so a
    closure with a captured variable is a function on a state [St].  [cur] is
    the span in progress, empty when no span is open ([start < 0] in Go).
    The predicates used here only look for [" "] and the double quote, both
    below 0x80, so that characters and bytes give the same spans. *)
Fixpoint fieldsFrom {St : Type} (f : St -> ascii -> bool * St)
    (st : St) (cur : string) (s : string) : list string :=
  match s with
  | EmptyString => match cur with EmptyString => [] | _ => [cur] end
  | String c s' =>
      let '(sep, st') := f st c in
      if sep then
        match cur with
        | EmptyString => fieldsFrom f st' "" s'
        | _ => cur :: fieldsFrom f st' "" s'
        end
      else fieldsFrom f st' (cur +:+ String c "") s'
  end.

Definition FieldsFunc {St : Type} (s : string)
    (f : St -> ascii -> bool * St) (st : St) : list string :=
  fieldsFrom f st "" s.

(** White space of [unicode.IsSpace], as UTF-8: the six ASCII characters,
    U+0085 and U+00A0 (two bytes), and U+1680, U+2000..U+200A, U+2028, U+2029,
    U+202F, U+205F and U+3000 (three bytes). *)
Definition asciiSpace (c : ascii) : bool :=
  let n := nat_of_ascii c in
  ((9 <=? n) && (n <=? 13)) || (n =? 32).

Definition space2 (c1 c2 : ascii) : bool :=
  (nat_of_ascii c1 =? 194) &&
  ((nat_of_ascii c2 =? 133) || (nat_of_ascii c2 =? 160)).

Definition space3 (c1 c2 c3 : ascii) : bool :=
  let n1 := nat_of_ascii c1 in
  let n2 := nat_of_ascii c2 in
  let n3 := nat_of_ascii c3 in
  ((n1 =? 225) && (n2 =? 154) && (n3 =? 128)) ||
  ((n1 =? 226) && (n2 =? 128) &&
     (((128 <=? n3) && (n3 <=? 138)) || (n3 =? 168) || (n3 =? 169) || (n3 =? 175))) ||
  ((n1 =? 226) && (n2 =? 129) && (n3 =? 159)) ||
  ((n1 =? 227) && (n2 =? 128) && (n3 =? 128)).

(** [strings.TrimLeftFunc(s, unicode.IsSpace)] on the bytes of [s]. *)
Fixpoint trimLeft (s : list ascii) : list ascii :=
  match s with
  | c1 :: s1 =>
      if asciiSpace c1 then trimLeft s1
      else match s1 with
           | c2 :: s2 =>
               if space2 c1 c2 then trimLeft s2
               else match s2 with
                    | c3 :: s3 => if space3 c1 c2 c3 then trimLeft s3 else s
                    | [] => s
                    end
           | [] => s
           end
  | [] => []
  end.

(** [strings.TrimRightFunc(s, unicode.IsSpace)], on the reversed bytes: the
    last character is decoded from the end of the string. *)
Fixpoint trimRightRev (r : list ascii) : list ascii :=
  match r with
  | c1 :: r1 =>
      if asciiSpace c1 then trimRightRev r1
      else match r1 with
           | c2 :: r2 =>
               if space2 c2 c1 then trimRightRev r2
               else match r2 with
                    | c3 :: r3 => if space3 c3 c2 c1 then trimRightRev r3 else r
                    | [] => r
                    end
           | [] => r
           end
  | [] => []
  end.

(** [strings.TrimSpace(s)]. *)
Definition TrimSpace (s : string) : string :=
  string_of_list_ascii
    (rev (trimRightRev (rev (trimLeft (list_ascii_of_string s))))).

End GoStrings.

(** ** Errors, events and computations *)

(** Go [error] values: [errorString] for [errors.New] and [fmt.Errorf],
    [withMessage] for [errors.Wrapf]. *)
Inductive error : Type :=
| errorString (msg : string)
| withMessage (cause : error) (msg : string).

(** [err.Error()]. *)
Fixpoint Error (e : error) : string :=
  match e with
  | errorString msg => msg
  | withMessage cause msg => msg +:+ ": " +:+ Error cause
  end.

(** [fmt.Errorf(format + "%v", err)]. *)
Definition Errorf (format : string) (err : error) : error :=
  errorString (format +:+ Error err).

(** [errors.Wrapf(err, msg)] for a non-nil [err]. *)
Definition Wrapf (err : error) (msg : string) : error := withMessage err msg.

(** What the package does to the outside world. *)
Inductive event : Type :=
| EExec (command : string) (args : list string)
    (* [exec.Command(command, args...)] run until it exits *)
| ERunExt (retries : nat) (command : string) (args : list string)
    (* [pivotutils.RunExt(retries, command, args...)] *)
| EImageInspect (imgURL : string)
| EStat (path : string)
| EReadFile (path : string)
| ECommander (noun : string) (args : list string).
    (* a call of a substituted [rpmOstreeCommander] *)

Definition history := list event.

(** A call either returns or panics; both leave a history behind. *)
Inductive outcome (A : Type) : Type :=
| Val (a : A)
| Panic (msg : string).
Arguments Val {A} a.
Arguments Panic {A} msg.

Definition M (A : Type) : Type := history -> outcome A * history.

Definition ret {A} (a : A) : M A := fun h => (Val a, h).

Definition panic {A} (msg : string) : M A := fun h => (Panic msg, h).

Definition bind {A B} (c : M A) (k : A -> M B) : M B :=
  fun h => match c h with
           | (Val a, h') => k a h'
           | (Panic msg, h') => (Panic msg, h')
           end.

(** Perform [e]; the world answers from the history before it. *)
Definition perform {A} (e : event) (answer : history -> A) : M A :=
  fun h => (Val (answer h), h ++ [e]).

(** [defer d] placed in front of [body]: [d] runs when [body] is left,
    whether it returned or panicked. *)
Definition defer {A B} (d : M B) (body : M A) : M A :=
  fun h => let '(o, h') := body h in (o, snd (d h')).

Notation "'do' x <- c ;; k" := (bind c (fun x => k))
  (at level 10, x name, c at level 99, k at level 200).
Notation "'do' x , y <- c ;; k" :=
  (bind c (fun p => let '(x, y) := p in k))
  (at level 10, x name, y name, c at level 99, k at level 200).

(** ** Data model *)

(** [RpmOstreeDeployment]: one deployment of [rpm-ostree status --json]. *)
Record RpmOstreeDeployment : Type := {
  ID : string;
  OSName : string;
  Serial : Z;
  Checksum : string;
  Version : string;
  Timestamp : Z;
  Booted : bool;
  Origin : string;
  CustomOrigin : list string
}.

Record rpmOstreeState : Type := { Deployments : list RpmOstreeDeployment }.

(** The zero value [RpmOstreeDeployment{}]. *)
Definition zeroDeployment : RpmOstreeDeployment :=
  {| ID := ""; OSName := ""; Serial := 0%Z; Checksum := ""; Version := "";
     Timestamp := 0%Z; Booted := false; Origin := ""; CustomOrigin := [] |}.

(** [imageInspection]: an entry of [podman inspect --type=image].  Its field
    [Name] would clash with [KernelArgument]'s, hence the module. *)
Module Inspection.
Record imageInspection : Type := {
  Name : string;
  Tag : string;
  Digest : string;
  RepoDigests : list string;
  Created : option Z;
  DockerVersion : string;
  Labels : gmap string string;
  Architecture : string;
  Os : string;
  Layers : list string
}.
End Inspection.
Abbreviation imageInspection := Inspection.imageInspection.

(** [m[k]] on a Go [map[string]string]: the empty string for a missing key. *)
Definition mapIndex (m : gmap string string) (k : string) : string :=
  default "" (m !! k).

(** [KernelArgument]; [Operation] is a Go [int]. *)
Record KernelArgument : Type := { Operation : Z; Name : string }.

Definition kargRemove : Z := 0.
Definition kargAdd : Z := 1.

Definition numRetriesNetCommands : nat := 5.
Definition kubeletAuthFile : string := "/var/lib/kubelet/config.json".
Definition realRpmOstreeCmd : string := "/usr/bin/rpm-ostree".

(** [rpmOstreeCommander]: the function type that wraps and mocks rpm-ostree. *)
Definition rpmOstreeCommander : Type :=
  string -> list string -> M (string * option error).

Record RpmOstreeClient : Type := { runRpmOstreeFunc : rpmOstreeCommander }.

(** The outside world.  The first five fields answer the events; the last two
    are [json.Unmarshal] into an [rpmOstreeState] and into a slice of
    [imageInspection].  [imageInspect] is a function of the package that is
    not among the sources, so its result is taken from the world: the labels
    of the inspected image, or an error. *)
Record World : Type := {
  combinedOutput : history -> string -> list string -> string * option error;
  runExt : history -> nat -> string -> list string -> string * option error;
  imageInspect : history -> string -> option (gmap string string) * option error;
  stat : history -> string -> option error;
  readFile : history -> string -> string * option error;
  unmarshalState : string -> rpmOstreeState * option error;
  unmarshalInspections : string -> list imageInspection * option error
}.

(** ** The rpm-ostree backed client *)

Module RpmOstree.
Import GoStrings.

(** [quoteSpaceSplit]: the closure passed to [strings.FieldsFunc] toggles its
    captured [quoted] on a double quote, then answers [!quoted && r == ' ']. *)
Definition quoteSpaceSplit_f (quoted : bool) (r : ascii) : bool * bool :=
  let quoted' := if Ascii.eqb r "034"%char then negb quoted else quoted in
  (negb quoted' && Ascii.eqb r " "%char, quoted').

Definition quoteSpaceSplit (s : string) : list string :=
  FieldsFunc s quoteSpaceSplit_f false.

Section WithWorld.
Context (w : World).

(** [runGetOut]: run a command and return its combined output. *)
Definition runGetOut (command : string) (args : list string)
    : M (string * option error) :=
  do rawOut, err <- perform (EExec command args)
                        (fun h => combinedOutput w h command args) ;;
  match err with
  | Some e =>
      ret ("", Some (Wrapf e ("error running " +:+ command +:+ " " +:+
                                Join args " " +:+ ": " +:+ rawOut)))
  | None => ret (rawOut, None)
  end.

(** [runRpmOstree]: the commander of a client that is not mocked.  The noun
    is not passed on to [runGetOut]. *)
Definition runRpmOstree (noun : string) (args : list string)
    : M (string * option error) :=
  if 2 <? length args then
    ret ("", Some (errorString
                     "rpm-ostree command is malformed, not enough arguments"))
  else runGetOut realRpmOstreeCmd args.

(** [NewNodeUpdaterClient] on a CoreOS variant. *)
Definition realClient : RpmOstreeClient :=
  {| runRpmOstreeFunc := runRpmOstree |}.

Definition RunRpmOstree (r : RpmOstreeClient) (noun : string)
    (args : list string) : M (string * option error) :=
  runRpmOstreeFunc r noun args.

(** The [for ... range rosState.Deployments] of [GetBootedDeployment] and the
    statement after it. *)
Fixpoint bootedLoop (ds : list RpmOstreeDeployment)
    : option RpmOstreeDeployment * option error :=
  match ds with
  | deployment :: rest =>
      if Booted deployment then (Some deployment, None) else bootedLoop rest
  | [] => (None, Some (errorString "not currently booted in a deployment"))
  end.

Definition GetBootedDeployment (r : RpmOstreeClient)
    : M (option RpmOstreeDeployment * option error) :=
  do output, err <- RunRpmOstree r "status" ["--json"] ;;
  match err with
  | Some e => ret (None, Some e)
  | None =>
      let '(rosState, err) := unmarshalState w output in
      match err with
      | Some e =>
          ret (None, Some (Errorf
            "failed to parse `rpm-ostree status --json` output: " e))
      | None => ret (bootedLoop (Deployments rosState))
      end
  end.

Definition GetStatus (r : RpmOstreeClient) : M (string * option error) :=
  do output, err <- RunRpmOstree r "status" [] ;;
  match err with
  | Some e => ret ("", Some e)
  | None => ret (output, None)
  end.

(** The image URL stored in a custom origin: [osImageURL] of
    [GetBootedOSImageURL], [previousPivot] of [Rebase]. *)
Definition pivotOf (customOrigin : list string) : string :=
  match customOrigin with
  | first :: _ =>
      if HasPrefix first "pivot://"
      then sliceFrom (String.length "pivot://") first
      else ""
  | [] => ""
  end.

Definition GetBootedOSImageURL (r : RpmOstreeClient)
    : M (string * string * option error) :=
  do bootedDeployment, err <- GetBootedDeployment r ;;
  match err with
  | Some e => ret ("", "", Some e)
  | None =>
      match bootedDeployment with
      | None => panic "nil pointer dereference"
      | Some d => ret (pivotOf (CustomOrigin d), Version d, None)
      end
  end.

Definition GetKernelArgs (r : RpmOstreeClient)
    : M (list string * option error) :=
  do out, err <- RunRpmOstree r "kargs" [] ;;
  match err with
  | Some e => ret ([], Some e)
  | None => ret (quoteSpaceSplit out, None)
  end.

Definition podmanInspect (imgURL : string)
    : M (option imageInspection * option error) :=
  do statErr <- perform (EStat kubeletAuthFile)
                  (fun h => stat w h kubeletAuthFile) ;;
  let authArgs := match statErr with
                  | None => ["--authfile"; kubeletAuthFile]
                  | Some _ => []
                  end in
  let args := ["pull"; "-q"] ++ authArgs ++ [imgURL] in
  do _out, err <- perform (ERunExt numRetriesNetCommands "podman" args)
                     (fun h => runExt w h numRetriesNetCommands "podman" args) ;;
  match err with
  | Some e => ret (None, Some e)
  | None =>
      let inspectArgs := ["inspect"; "--type=image"; imgURL] in
      do output, err <- runGetOut "podman" inspectArgs ;;
      match err with
      | Some e => ret (None, Some e)
      | None =>
          let '(imagedataArray, err) := unmarshalInspections w output in
          match err with
          | Some e => ret (None, Some (Wrapf e "unmarshaling podman inspect"))
          | None =>
              match imagedataArray with
              | first :: _ => ret (Some first, None)
              | [] => panic "index out of range"
              end
          end
      end
  end.

(** The block of [Rebase] that finds the commit when the image has no
    [com.coreos.ostree-commit] label: the references of the repository are
    listed, and the only one is resolved.  The result is [ostreeCsum] and the
    error with which [Rebase] returns, if any. *)
Definition Rebase_refs (repo : string) : M (string * option error) :=
  do refText, err <- runGetOut "ostree" ["refs"; "--repo"; repo] ;;
  match err with
  | Some e => ret ("", Some e)
  | None =>
      let refs := Split (TrimSpace refText) "010"%char in
      if length refs =? 1 then
        do ostreeCsumBytes, err <-
          runGetOut "ostree" ["rev-parse"; "--repo"; repo; nth 0 refs ""] ;;
        match err with
        | Some e => ret ("", Some e)
        | None => ret (TrimSpace ostreeCsumBytes, None)
        end
      else if 1 <? length refs then
        ret ("", Some (errorString "multiple refs found in repo"))
      else
        ret ("", Some (errorString "No refs found in repo"))
  end.

(** [customURL] of [Rebase]: the origin spec shown by [rpm-ostree status]. *)
Definition customURL (imgURL : string) : string := "pivot://" +:+ imgURL.

(** [args] of [Rebase]. *)
Definition Rebase_args (repo ostreeCsum imgURL : string) : list string :=
  ["rebase"; "--experimental"; repo +:+ ":" +:+ ostreeCsum;
   "--custom-origin-url"; customURL imgURL;
   "--custom-origin-description"; "Managed by machine-config-operator"].

(** [Rebase] from its [defer] on, with the labels read from the image.  The
    source calls the package's [runRpmOstree] last, not the client's
    commander; that wrapper is the parameter [run] here, so that what is
    handed to it can be looked at, and [Rebase_pivot] is the code itself.
    [changed] is set whatever the call returns. *)
Definition Rebase_pivot_with (run : rpmOstreeCommander)
    (imgURL osImageContentDir ostreeCsum : string)
    : M (bool * option error) :=
  defer (perform (EExec "podman" ["rmi"; imgURL]) (fun _ => tt))
    (let repo := osImageContentDir +:+ "/srv/repo" in
     do ostreeCsum, err <-
       (if String.eqb ostreeCsum "" then Rebase_refs repo
        else ret (ostreeCsum, None)) ;;
     match err with
     | Some e => ret (false, Some e)
     | None =>
         let args := Rebase_args repo ostreeCsum imgURL in
         do _out, err <- run (hd "" args) (tl args) ;;
         ret (true, err)
     end).

Definition Rebase_pivot : string -> string -> string -> M (bool * option error) :=
  Rebase_pivot_with runRpmOstree.

(** [Rebase], with the same parameter. *)
Definition Rebase_with (run : rpmOstreeCommander) (r : RpmOstreeClient)
    (imgURL osImageContentDir : string) : M (bool * option error) :=
  do defaultDeployment, err <- GetBootedDeployment r ;;
  match err with
  | Some e => ret (false, Some e)
  | None =>
      match defaultDeployment with
      | None => panic "nil pointer dereference"
      | Some _ =>
          do imageData, err <- perform (EImageInspect imgURL)
                                 (fun h => imageInspect w h imgURL) ;;
          match err with
          | Some _ =>
              do podmanImgData, err <- podmanInspect imgURL ;;
              match err with
              | Some e => ret (false, Some e)
              | None =>
                  match podmanImgData with
                  | None => panic "nil pointer dereference"
                  | Some d =>
                      Rebase_pivot_with run imgURL osImageContentDir
                        (mapIndex (Inspection.Labels d) "com.coreos.ostree-commit")
                  end
              end
          | None =>
              match imageData with
              | None => panic "nil pointer dereference"
              | Some labels =>
                  Rebase_pivot_with run imgURL osImageContentDir
                    (mapIndex labels "com.coreos.ostree-commit")
              end
          end
      end
  end.

(** [Rebase]: the wrapper is the package's [runRpmOstree]. *)
Definition Rebase : RpmOstreeClient -> string -> string ->
    M (bool * option error) :=
  Rebase_with runRpmOstree.

Definition isKernelArgInUse (r : RpmOstreeClient) (arg : string)
    : M (bool * option error) :=
  do checkable, err <- GetKernelArgs r ;;
  match err with
  | Some e => ret (false, Some e)
  | None => ret (existsb (fun v => HasPrefix v arg) checkable, None)
  end.

(** The inner loop of [SetKernelArgs], over the tokens [sv] of one argument;
    an error leaves the whole function. *)
Fixpoint kargsOfTokens (r : RpmOstreeClient) (operation : Z)
    (svs : list string) (kargs : list string)
    : M (list string * option error) :=
  match svs with
  | [] => ret (kargs, None)
  | sv :: rest =>
      if Z.eqb operation kargAdd then
        kargsOfTokens r operation rest (kargs ++ ["--append=" +:+ sv])
      else if Z.eqb operation kargRemove then
        do inUse, err <- isKernelArgInUse r sv ;;
        match err with
        | Some e => ret (kargs, Some e)
        | None =>
            kargsOfTokens r operation rest
              (if inUse : bool then kargs ++ ["--delete=" +:+ sv] else kargs)
        end
      else kargsOfTokens r operation rest kargs
  end.

(** The outer loop of [SetKernelArgs], over the requested arguments. *)
Fixpoint kargsOfArgs (r : RpmOstreeClient) (args : list KernelArgument)
    (kargs : list string) : M (list string * option error) :=
  match args with
  | [] => ret (kargs, None)
  | v :: rest =>
      do kargs, err <-
        kargsOfTokens r (Operation v) (quoteSpaceSplit (Name v)) kargs ;;
      match err with
      | Some e => ret (kargs, Some e)
      | None => kargsOfArgs r rest kargs
      end
  end.

Definition SetKernelArgs (r : RpmOstreeClient) (args : list KernelArgument)
    : M (string * option error) :=
  do kargs, err <- kargsOfArgs r args [] ;;
  match err with
  | Some e => ret ("", Some e)
  | None =>
      if length kargs =? 0 then ret ("", None)
      else RunRpmOstree r "kargs" kargs
  end.

Definition RemovePendingDeployment (r : RpmOstreeClient) : M (option error) :=
  do _out, err <- RunRpmOstree r "cleanup" ["-p"] ;;
  ret err.

End WithWorld.
End RpmOstree.

(** ** The client for hosts that are not a CoreOS variant *)

Module NotCoreOS.
Import GoStrings.

Inductive notCoreOSClient : Type := mkNotCoreOSClient.

(** The sentinel for tasks that legacy systems do not support. *)
Definition ErrNotCoreosVariant : error :=
  errorString "operating system is not a CoreOS Variant".

Definition GetBootedDeployment (noCos : notCoreOSClient)
    : M (option RpmOstreeDeployment * option error) :=
  ret (Some zeroDeployment, None).

Definition Rebase (noCos : notCoreOSClient) (a b : string)
    : M (bool * option error) :=
  ret (false, Some ErrNotCoreosVariant).

Definition GetStatus (noCos : notCoreOSClient) : M (string * option error) :=
  ret ("", Some ErrNotCoreosVariant).

Definition GetBootedOSImageURL (noCos : notCoreOSClient)
    : M (string * string * option error) :=
  ret ("", "", Some ErrNotCoreosVariant).

(** [CmdLineFile] is a constant of the package that is not among the
    sources; it is an argument here. *)
Definition GetKernelArgs (w : World) (CmdLineFile : string)
    (noCos : notCoreOSClient) : M (list string * option error) :=
  do content, err <- perform (EReadFile CmdLineFile)
                       (fun h => readFile w h CmdLineFile) ;;
  match err with
  | Some e => ret ([], Some e)
  | None => ret (Split content " "%char, None)
  end.

Definition SetKernelArgs (noCos : notCoreOSClient)
    (args : list KernelArgument) : M (string * option error) :=
  ret ("unsupported", Some ErrNotCoreosVariant).

Definition RemovePendingDeployment (noCos : notCoreOSClient)
    : M (option error) :=
  ret (Some ErrNotCoreosVariant).

Definition RunRpmOstree (noCos : notCoreOSClient) (noun : string)
    (args : list string) : M (string * option error) :=
  ret ("", Some ErrNotCoreosVariant).

End NotCoreOS.

(** ** The interface [NodeUpdaterClient] and its two implementations *)

Class NodeUpdaterClient (C : Type) : Type := {
  GetBootedDeployment : C -> M (option RpmOstreeDeployment * option error);
  GetBootedOSImageURL : C -> M (string * string * option error);
  GetKernelArgs : C -> M (list string * option error);
  GetStatus : C -> M (string * option error);
  Rebase : C -> string -> string -> M (bool * option error);
  RemovePendingDeployment : C -> M (option error);
  SetKernelArgs : C -> list KernelArgument -> M (string * option error);
  RunRpmOstree : C -> string -> list string -> M (string * option error)
}.

#[export] Instance RpmOstreeClient_updater (w : World)
    : NodeUpdaterClient RpmOstreeClient := {
  GetBootedDeployment := RpmOstree.GetBootedDeployment w;
  GetBootedOSImageURL := RpmOstree.GetBootedOSImageURL w;
  GetKernelArgs := RpmOstree.GetKernelArgs;
  GetStatus := RpmOstree.GetStatus;
  Rebase := RpmOstree.Rebase w;
  RemovePendingDeployment := RpmOstree.RemovePendingDeployment;
  SetKernelArgs := RpmOstree.SetKernelArgs;
  RunRpmOstree := RpmOstree.RunRpmOstree
}.

#[export] Instance notCoreOSClient_updater (w : World) (CmdLineFile : string)
    : NodeUpdaterClient NotCoreOS.notCoreOSClient := {
  GetBootedDeployment := NotCoreOS.GetBootedDeployment;
  GetBootedOSImageURL := NotCoreOS.GetBootedOSImageURL;
  GetKernelArgs := NotCoreOS.GetKernelArgs w CmdLineFile;
  GetStatus := NotCoreOS.GetStatus;
  Rebase := NotCoreOS.Rebase;
  RemovePendingDeployment := NotCoreOS.RemovePendingDeployment;
  SetKernelArgs := NotCoreOS.SetKernelArgs;
  RunRpmOstree := NotCoreOS.RunRpmOstree
}.

(** ** The tokens of a kernel command line, in the specification's words *)

Module Spec.

Definition dquote : ascii := "034"%char.

(** Position [i] of [l] lies inside a double-quoted span when an odd number
    of double quotes stands in front of it. *)
Definition insideQuotes (l : list ascii) (i : nat) : bool :=
  Nat.odd (count_occ ascii_dec (firstn i l) dquote).

(** A token boundary: a space that is not inside a double-quoted span. *)
Definition tokenBoundary (l : list ascii) (i : nat) : bool :=
  match nth_error l i with
  | Some c => Ascii.eqb c " "%char && negb (insideQuotes l i)
  | None => false
  end.

(** [l], whose first character has position [i], cut at every boundary. *)
Fixpoint piecesFrom (boundary : nat -> bool) (i : nat) (l : list ascii)
    : list (list ascii) :=
  match l with
  | [] => [[]]
  | c :: l' =>
      if boundary i then [] :: piecesFrom boundary (S i) l'
      else match piecesFrom boundary (S i) l' with
           | p :: ps => (c :: p) :: ps
           | [] => [[c]]
           end
  end.

(** The tokens: the pieces that are not empty. *)
Definition tokens (s : string) : list string :=
  let l := list_ascii_of_string s in
  map string_of_list_ascii
    (filter (fun p => negb (length p =? 0)) (piecesFrom (tokenBoundary l) 0 l)).

End Spec.

(** Two auxiliaries of the proof that [quoteSpaceSplit] computes
    [Spec.tokens]: [cur] put in front of the first piece, and the pieces
    that are not empty, as strings. *)
Definition prepend (cur : list ascii) (ps : list (list ascii))
    : list (list ascii) :=
  match ps with p :: ps' => (cur ++ p) :: ps' | [] => [cur] end.

Definition render (ps : list (list ascii)) : list string :=
  map string_of_list_ascii (filter (fun p => negb (length p =? 0)) ps).

(** The error with which [runRpmOstree] refuses an invocation. *)
Definition malformed : error :=
  errorString "rpm-ostree command is malformed, not enough arguments".

(** ** Test doubles *)

(** A commander that records each call and answers from a table of replies:
    the stand-in for rpm-ostree. *)
Definition mockCommander
    (reply : history -> string -> list string -> string * option error)
    : rpmOstreeCommander :=
  fun noun args => perform (ECommander noun args) (fun h => reply h noun args).

Definition mockClient
    (reply : history -> string -> list string -> string * option error)
    : RpmOstreeClient :=
  {| runRpmOstreeFunc := mockCommander reply |}.

(** The query of [GetKernelArgs], as a mocked commander sees it. *)
Definition kargsQuery : event := ECommander "kargs" [].

Module Example.

Definition bootedDeployment : RpmOstreeDeployment :=
  {| ID := "rhcos-1"; OSName := "rhcos"; Serial := 0%Z; Checksum := "c0ffee";
     Version := "42.80"; Timestamp := 1%Z; Booted := true;
     Origin := ""; CustomOrigin := ["pivot://quay.io/os@sha256:1"; "Managed"] |}.

Definition rollbackDeployment : RpmOstreeDeployment :=
  {| ID := "rhcos-0"; OSName := "rhcos"; Serial := 0%Z; Checksum := "decaf";
     Version := "42.79"; Timestamp := 0%Z; Booted := false;
     Origin := "rhcos:stable"; CustomOrigin := [] |}.

(** A host where every command prints nothing and succeeds, the status
    parses into a rollback and a booted deployment, and the image carries the
    labels [labels]. *)
Definition world (labels : gmap string string) (refs revParse : string)
    : World :=
  {| combinedOutput := fun _ command args =>
       if String.eqb command "ostree" then
         (if String.eqb (hd "" args) "refs" then refs else revParse, None)
       else ("", None);
     runExt := fun _ _ _ _ => ("", None);
     imageInspect := fun _ _ => (Some labels, None);
     stat := fun _ _ => None;
     readFile := fun _ _ => ("", None);
     unmarshalState := fun _ =>
       ({| Deployments := [rollbackDeployment; bootedDeployment] |}, None);
     unmarshalInspections := fun _ => ([], None) |}.

(** rpm-ostree answers every call with the kernel arguments [kargs]. *)
Definition reply (kargs : string)
    : history -> string -> list string -> string * option error :=
  fun _ _ _ => (kargs, None).

End Example.

(** Strings with double quotes in them. *)
Module Quoted.

Definition dq (s : string) : string :=
  String "034"%char (s +:+ String "034"%char "").

(** The line of the comment on [quoteSpaceSplit]. *)
Definition yippie : string := "boo=bar=" +:+ dq "YIPPIE KA YAY".
Definition line : string := yippie +:+ " baz foo".

(** A token whose double quote is never closed. *)
Definition dangling : string := "x=" +:+ String "034"%char "y".

End Quoted.

(** ** Single tokens *)

(** [a] is a single token: the tokenizer returns it whole. *)
Definition isToken (a : string) : Prop := RpmOstree.quoteSpaceSplit a = [a].

(** Every double quote of [a] is closed: their number is even. *)
Definition quotesClosed (a : string) : Prop :=
  Nat.even (count_occ ascii_dec (list_ascii_of_string a) Spec.dquote) = true.

(** The state of [quoteSpaceSplit]'s closure after the characters of [s], and
    the number of characters of [s] on which it answers [true]. *)
Fixpoint endState (quoted : bool) (s : string) : bool :=
  match s with
  | EmptyString => quoted
  | String c s' => endState (snd (RpmOstree.quoteSpaceSplit_f quoted c)) s'
  end.

Fixpoint separators (quoted : bool) (s : string) : nat :=
  match s with
  | EmptyString => 0
  | String c s' =>
      let '(sep, quoted') := RpmOstree.quoteSpaceSplit_f quoted c in
      (if sep then 1 else 0) + separators quoted' s'
  end.

(** The sum of the lengths of the strings of a list. *)
Definition totalLength (l : list string) : nat :=
  fold_right (fun s n => String.length s + n) 0 l.

(** ** Requests for removal *)

(** The tokens that [args] asks to remove, in the order of the requests. *)
Definition removeTokens (args : list KernelArgument) : list string :=
  flat_map (fun v => if Z.eqb (Operation v) kargRemove
                     then RpmOstree.quoteSpaceSplit (Name v) else []) args.



(** ** White space *)

(** A byte sequence that is nothing but white space: a sequence of encodings
    of characters of [unicode.IsSpace]. *)
Inductive whiteSpace : list ascii -> Prop :=
| whiteSpace_nil : whiteSpace []
| whiteSpace_ascii (c : ascii) (l : list ascii) :
    GoStrings.asciiSpace c = true -> whiteSpace l -> whiteSpace (c :: l)
| whiteSpace_two (c1 c2 : ascii) (l : list ascii) :
    GoStrings.space2 c1 c2 = true -> whiteSpace l ->
    whiteSpace (c1 :: c2 :: l)
| whiteSpace_three (c1 c2 c3 : ascii) (l : list ascii) :
    GoStrings.space3 c1 c2 c3 = true -> whiteSpace l ->
    whiteSpace (c1 :: c2 :: c3 :: l).

Definition newline : string := String "010"%char "".

(** The two [ostree] invocations of [Rebase]. *)
Definition refsArgs (repo : string) : list string := ["refs"; "--repo"; repo].
Definition revParseArgs (repo ref : string) : list string :=
  ["rev-parse"; "--repo"; repo; ref].

(** The result of the block when the listing succeeded with one line
    [ref]: the commit is what [rev-parse] of [ref] prints, trimmed, and a
    failure of [rev-parse] is the failure of the block. *)
Definition resolved (w : World) (repo ref : string) (h : history)
    : string * option error :=
  match combinedOutput w h "ostree" (revParseArgs repo ref) with
  | (rawOut, Some e) =>
      ("", Some (Wrapf e ("error running ostree " +:+
                            GoStrings.Join (revParseArgs repo ref) " " +:+ ": " +:+
                            rawOut)))
  | (rawOut, None) => (GoStrings.TrimSpace rawOut, None)
  end.

(** A host whose image carries the commit label, and one whose image has no
    label and whose repository lists no reference. *)
Module Hosts.

Definition labelled : World :=
  Example.world {[ "com.coreos.ostree-commit" := "c0ffee" ]} "" "".

Definition emptyRepo : World :=
  Example.world ∅ "" ("c0ffee" +:+ newline).

Definition imgURL : string := "quay.io/os@sha256:2".
Definition osImageContentDir : string := "/run/mco".
Definition repo : string := "/run/mco/srv/repo".

End Hosts.

(** ** Further notions for the properties of the code *)

(** [s] has no double quote. *)
Definition quoteFree (s : string) : Prop :=
  count_occ ascii_dec (list_ascii_of_string s) Spec.dquote = 0.

(** The strings of [l] that are not empty. *)
Definition nonEmpty (l : list string) : list string :=
  List.filter (fun s => negb (String.eqb s "")) l.

(** The arguments of the pull of [podmanInspect], with and without the pull
    secret of the kubelet. *)
Definition pullArgs (authFile : bool) (imgURL : string) : list string :=
  ["pull"; "-q"] ++
  (if authFile then ["--authfile"; kubeletAuthFile] else []) ++ [imgURL].

(** The removal of the image that [Rebase] defers. *)
Definition rmi (imgURL : string) : event := EExec "podman" ["rmi"; imgURL].

(** A run of [ostree]. *)
Definition isOstree (e : event) : Prop := exists args, e = EExec "ostree" args.

(** Hosts where the direct inspection of the image fails. *)
Module Fallback.

Definition unauthorized : error := errorString "unauthorized".
Definition pullFailed : error := errorString "manifest unknown".

Definition inspected : imageInspection :=
  {| Inspection.Name := ""; Inspection.Tag := "";
     Inspection.Digest := "sha256:2"; Inspection.RepoDigests := [];
     Inspection.Created := None; Inspection.DockerVersion := "";
     Inspection.Labels := {[ "com.coreos.ostree-commit" := "c0ffee" ]};
     Inspection.Architecture := "amd64"; Inspection.Os := "linux";
     Inspection.Layers := [] |}.

(** The pull fails or not, and [podman inspect] parses into [images]. *)
Definition world (pullErr : option error) (images : list imageInspection)
    : World :=
  {| combinedOutput := fun _ _ _ => ("[]", None);
     runExt := fun _ _ _ _ => ("", pullErr);
     imageInspect := fun _ _ => (None, Some unauthorized);
     stat := fun _ _ => None;
     readFile := fun _ _ => ("", None);
     unmarshalState := fun _ =>
       ({| Deployments := [Example.bootedDeployment] |}, None);
     unmarshalInspections := fun _ => (images, None) |}.

End Fallback.

(** The flags that the requests [args] queue when the host reports the
    kernel arguments [current]: a pure account of the two loops of
    [SetKernelArgs]. *)
Definition flagsOfToken (current : list string) (operation : Z) (sv : string)
    : list string :=
  if Z.eqb operation kargAdd then ["--append=" +:+ sv]
  else if Z.eqb operation kargRemove then
    if existsb (fun v => GoStrings.HasPrefix v sv) current
    then ["--delete=" +:+ sv] else []
  else [].

Definition queuedFlags (current : list string) (args : list KernelArgument)
    : list string :=
  flat_map (fun v => flat_map (flagsOfToken current (Operation v))
                       (RpmOstree.quoteSpaceSplit (Name v))) args.

(** ** The operator: the status it reports on the cluster *)

Module Operator.

(** [fmt.Sprintf] of [%d]. *)
Definition Sprintf_d (n : Z) : string := NilZero.string_of_int (Z.to_int n).

(** [mcfgv1.MachineConfig], of which the annotations are read. *)
Record MachineConfig : Type := { Annotations : gmap string string }.

(** [mcfgv1.MachineConfigPool], flattened: [PoolName] is [GetName()],
    [ConfigurationName] is [Status.Configuration.Name], [ConfigurationSource]
    lists the [Name] of each reference of [Status.Configuration.Source], and
    the other three fields are those of [Status].  The type of a pool
    condition is left open. *)
Record MachineConfigPool (Condition : Type) : Type := {
  PoolName : string;
  ConfigurationName : string;
  ConfigurationSource : list string;
  PoolConditions : list Condition;
  MachineCount : Z;
  UpdatedMachineCount : Z
}.
Arguments PoolName {Condition}.
Arguments ConfigurationName {Condition}.
Arguments ConfigurationSource {Condition}.
Arguments PoolConditions {Condition}.
Arguments MachineCount {Condition}.
Arguments UpdatedMachineCount {Condition}.

(** The second loop of [isMachineConfigPoolConfigurationValid], over the
    names [mcs].  A getter that returns neither a config nor an error makes
    the read of the annotations panic. *)
Fixpoint checkConfigs (key generated version : string)
    (machineConfigGetter : string -> option MachineConfig * option error)
    (mcs : list string) : outcome (option error) :=
  match mcs with
  | [] => Val None
  | mcName :: rest =>
      match machineConfigGetter mcName with
      | (_, Some err) => Val (Some err)
      | (None, None) => Panic "nil pointer dereference"
      | (Some mc, None) =>
          match Annotations mc !! key with
          | None =>
              if String.eqb generated mcName then
                Val (Some (errorString
                  (mcName +:+ " must be created by controller version "
                     +:+ version)))
              else checkConfigs key generated version machineConfigGetter rest
          | Some v =>
              if negb (String.eqb v version) then
                Val (Some (errorString
                  ("controller version mismatch for " +:+ mcName +:+
                   " expected " +:+ version +:+ " has " +:+ v)))
              else checkConfigs key generated version machineConfigGetter rest
          end
      end
  end.

(** [isMachineConfigPoolConfigurationValid]; [key] is
    [ctrlcommon.GeneratedByControllerVersionAnnotationKey], a constant that
    is not among the sources. *)
Definition isMachineConfigPoolConfigurationValid {Condition : Type}
    (key : string) (pool : MachineConfigPool Condition) (version : string)
    (machineConfigGetter : string -> option MachineConfig * option error)
    : outcome (option error) :=
  if String.length (ConfigurationName pool) =? 0 then
    Val (Some (errorString
      ("configuration for pool " +:+ PoolName pool +:+ " is empty")))
  else if length (ConfigurationSource pool) =? 0 then
    Val (Some (errorString
      ("list of MachineConfigs that were used to generate configuration for pool "
         +:+ PoolName pool +:+ " is empty")))
  else
    checkConfigs key (ConfigurationName pool) version machineConfigGetter
      (ConfigurationName pool :: ConfigurationSource pool).

(** [machineConfigPoolStatus]; [isTrue] is
    [mcfgv1.IsMachineConfigPoolConditionTrue], [updated] and [updating] the
    two condition types, all from a package that is not among the
    sources. *)
Definition machineConfigPoolStatus {Condition CondType : Type}
    (isTrue : list Condition -> CondType -> bool)
    (updated updating : CondType) (pool : MachineConfigPool Condition)
    : string :=
  if isTrue (PoolConditions pool) updated then
    "all " +:+ Sprintf_d (MachineCount pool) +:+
    " nodes are at latest configuration " +:+ ConfigurationName pool
  else if isTrue (PoolConditions pool) updating then
    Sprintf_d (UpdatedMachineCount pool) +:+ " out of " +:+
    Sprintf_d (MachineCount pool) +:+
    " nodes have updated to latest configuration " +:+ ConfigurationName pool
  else "<unknown>".

(** The loop of [allMachineConfigPoolStatus] over the pools: a pool that is
    not valid is passed over, a valid one is entered under its name. *)
Fixpoint poolStatuses {Condition : Type}
    (valid : MachineConfigPool Condition -> outcome (option error))
    (status : MachineConfigPool Condition -> string)
    (pools : list (MachineConfigPool Condition)) (ret : gmap string string)
    : outcome (gmap string string) :=
  match pools with
  | [] => Val ret
  | p :: rest =>
      match valid p with
      | Panic msg => Panic msg
      | Val (Some _) => poolStatuses valid status rest ret
      | Val None => poolStatuses valid status rest (<[PoolName p := status p]> ret)
      end
  end.

End Operator.

(** ** The operator: synchronising the ClusterOperator object *)

Module Sync.
Import Operator.

(** [configv1.ClusterOperatorStatusCondition]; the type and the status of a
    condition are strings in Go. *)
Record ClusterOperatorStatusCondition : Type := {
  Type_ : string;
  Status : string;
  LastTransitionTime : Z;
  Reason : string;
  Message : string
}.

Definition OperatorAvailable : string := "Available".
Definition OperatorProgressing : string := "Progressing".
Definition OperatorFailing : string := "Failing".
Definition ConditionTrue : string := "True".
Definition ConditionFalse : string := "False".

(** A condition of which only the type, the status and the message are
    given; the other fields have their zero value. *)
Definition condition (type status message : string)
    : ClusterOperatorStatusCondition :=
  {| Type_ := type; Status := status; LastTransitionTime := 0%Z;
     Reason := ""; Message := message |}.

Record ObjectReference : Type := {
  Group : string; Resource : string; Namespace : string; RefName : string
}.

(** [configv1.ClusterOperator], flattened: [ObjectName] is
    [ObjectMeta.Name], the next three fields are those of [Status], and
    [ExtensionRaw] is [Status.Extension.Raw].  [Version] is the type of an
    operand version. *)
Record ClusterOperator (Version : Type) : Type := {
  ObjectName : string;
  Conditions : list ClusterOperatorStatusCondition;
  Versions : list Version;
  RelatedObjects : list ObjectReference;
  ExtensionRaw : string
}.
Arguments ObjectName {Version}.
Arguments Conditions {Version}.
Arguments Versions {Version}.
Arguments RelatedObjects {Version}.
Arguments ExtensionRaw {Version}.

Section WithCluster.
Context {Version PoolCondition PoolCondType : Type}.

Definition CO : Type := ClusterOperator Version.

(** The calls to the API server and to the lister of pools. *)
Inductive call : Type :=
| CGet (name : string)
| CCreate (co : CO)
| CUpdateStatus (co : CO)
| CListPools.

Definition log : Type := list call.

(** Computations of the operator: as [M], over a log of calls. *)
Definition K (A : Type) : Type := log -> outcome A * log.

Definition kret {A} (a : A) : K A := fun l => (Val a, l).

Definition kpanic {A} (msg : string) : K A := fun l => (Panic msg, l).

Definition kbind {A B} (c : K A) (k : A -> K B) : K B :=
  fun l => match c l with
           | (Val a, l') => k a l'
           | (Panic msg, l') => (Panic msg, l')
           end.

Definition request {A} (c : call) (answer : log -> A) : K A :=
  fun l => (Val (answer l), l ++ [c]).

(** Read something of the world without calling anyone (the clock). *)
Definition observe {A} (answer : log -> A) : K A := fun l => (Val (answer l), l).

Local Notation "'let*' x := c 'in' k" := (kbind c (fun x => k))
  (at level 10, x name, c at level 99, k at level 200).
Local Notation "'let*' x , y := c 'in' k" :=
  (kbind c (fun p => let '(x, y) := p in k))
  (at level 10, x name, y name, c at level 99, k at level 200).

(** What the operator is given from outside this file: the answers of the
    API server and of the listers, the clock, the tests on errors of
    [meta] and [apierrors], the helpers of [cov1helpers], [json.Marshal] of
    the statuses, and the test of a pool condition. *)
Record Cluster : Type := {
  getCO : log -> string -> option CO * option error;
  createCO : log -> CO -> option CO * option error;
  updateStatusCO : log -> CO -> option CO * option error;
  listPools : log -> list (MachineConfigPool PoolCondition) * option error;
  getMC : string -> option MachineConfig * option error;
  now : log -> Z;
  noKindMatch : error -> bool;
  notFound : error -> bool;
  IsStatusConditionTrue :
    list ClusterOperatorStatusCondition -> string -> bool;
  FindStatusCondition :
    list ClusterOperatorStatusCondition -> string ->
    option ClusterOperatorStatusCondition;
  SetStatusCondition :
    log -> list ClusterOperatorStatusCondition ->
    ClusterOperatorStatusCondition -> list ClusterOperatorStatusCondition;
  jsonMarshal : gmap string string -> string * option error;
  isPoolConditionTrue : list PoolCondition -> PoolCondType -> bool;
  MachineConfigPoolUpdated : PoolCondType;
  MachineConfigPoolUpdating : PoolCondType;
  GeneratedByControllerVersionAnnotationKey : string;
  controllerVersion : string
}.

(** [Operator], with its version store as the three functions used here. *)
Record Operator : Type := {
  name : string;
  inClusterBringup : bool;
  vStore_GetAll : list Version;
  vStore_Get : string -> string * bool;
  vStore_Equal : list Version -> bool
}.

Context (c : Cluster) (optr : Operator).

(** [meta.IsNoMatchError] and [apierrors.IsNotFound]: false on nil. *)
Definition IsNoMatchError (err : option error) : bool :=
  match err with Some e => noKindMatch c e | None => false end.

Definition IsNotFound (err : option error) : bool :=
  match err with Some e => notFound c e | None => false end.

Definition setConditions (co : CO)
    (conditions : list ClusterOperatorStatusCondition) : CO :=
  {| ObjectName := ObjectName co; Conditions := conditions;
     Versions := Versions co; RelatedObjects := RelatedObjects co;
     ExtensionRaw := ExtensionRaw co |}.

Definition setVersions (co : CO) (versions : list Version) : CO :=
  {| ObjectName := ObjectName co; Conditions := Conditions co;
     Versions := versions; RelatedObjects := RelatedObjects co;
     ExtensionRaw := ExtensionRaw co |}.

Definition setRelatedObjects (co : CO) (objects : list ObjectReference) : CO :=
  {| ObjectName := ObjectName co; Conditions := Conditions co;
     Versions := Versions co; RelatedObjects := objects;
     ExtensionRaw := ExtensionRaw co |}.

Definition setExtensionRaw (co : CO) (raw : string) : CO :=
  {| ObjectName := ObjectName co; Conditions := Conditions co;
     Versions := Versions co; RelatedObjects := RelatedObjects co;
     ExtensionRaw := raw |}.

(** [cov1helpers.SetStatusCondition(&co.Status.Conditions, condition)]. *)
Definition setStatusCondition (co : CO)
    (cond : ClusterOperatorStatusCondition) : K CO :=
  let* conditions := observe (fun l => SetStatusCondition c l (Conditions co) cond) in
  kret (setConditions co conditions).

Definition allMachineConfigPoolStatus
    : K (gmap string string * option error) :=
  let* pools, err := request CListPools (listPools c) in
  match err with
  | Some e => kret (∅, Some e)
  | None =>
      match poolStatuses
              (fun p => isMachineConfigPoolConfigurationValid
                          (GeneratedByControllerVersionAnnotationKey c) p
                          (controllerVersion c) (getMC c))
              (machineConfigPoolStatus (isPoolConditionTrue c)
                 (MachineConfigPoolUpdated c) (MachineConfigPoolUpdating c))
              pools ∅ with
      | Val ret => kret (ret, None)
      | Panic msg => kpanic msg
      end
  end.

(** [setMachineConfigPoolStatuses(&co.Status)]: both errors are logged and
    leave the status as it is. *)
Definition setMachineConfigPoolStatuses (co : CO) : K CO :=
  let* statuses, err := allMachineConfigPoolStatus in
  match err with
  | Some _ => kret co
  | None =>
      let '(raw, err) := jsonMarshal c statuses in
      match err with
      | Some _ => kret co
      | None => kret (setExtensionRaw co raw)
      end
  end.

Definition initializeClusterOperator : K (option CO * option error) :=
  let created := {| ObjectName := name optr; Conditions := []; Versions := [];
                    RelatedObjects := []; ExtensionRaw := "" |} in
  let* co, err := request (CCreate created) (fun l => createCO c l created) in
  match err with
  | Some e => kret (None, Some e)
  | None =>
      match co with
      | None => kpanic "nil pointer dereference"
      | Some co =>
          let* co := setStatusCondition co
                       (condition OperatorAvailable ConditionFalse "") in
          let* co := setStatusCondition co
                       (condition OperatorProgressing ConditionFalse "") in
          let* co := setStatusCondition co
                       (condition OperatorFailing ConditionFalse "") in
          let co := setRelatedObjects co
                      [{| Group := ""; Resource := "namespaces";
                          Namespace := "";
                          RefName := "openshift-machine-config-operator" |}] in
          let co := setVersions co (vStore_GetAll optr) in
          request (CUpdateStatus co) (fun l => updateStatusCO c l co)
      end
  end.

Definition fetchClusterOperator : K (option CO * option error) :=
  let* co, err := request (CGet (name optr)) (fun l => getCO c l (name optr)) in
  if IsNoMatchError err then kret (None, None)
  else if IsNotFound err then initializeClusterOperator
  else match err with
       | Some e => kret (None, Some e)
       | None => kret (co, None)
       end.

Definition updateStatus (co : CO) (status : ClusterOperatorStatusCondition)
    : K (option error) :=
  match FindStatusCondition c (Conditions co) (Type_ status) with
  | None => kpanic "nil pointer dereference"
  | Some existingCondition =>
      let* status :=
        (if negb (String.eqb (Status existingCondition) (Status status)) then
           let* t := observe (now c) in
           kret {| Type_ := Type_ status; Status := Status status;
                   LastTransitionTime := t; Reason := Reason status;
                   Message := Message status |}
         else kret status) in
      let* co := setStatusCondition co status in
      let* co := setMachineConfigPoolStatuses co in
      let* _updated, err :=
        request (CUpdateStatus co) (fun l => updateStatusCO c l co) in
      kret err
  end.

Definition syncVersion : K (option error) :=
  let* co, err := fetchClusterOperator in
  match err with
  | Some e => kret (Some e)
  | None =>
      match co with
      | None => kret None
      | Some co =>
          if IsStatusConditionTrue c (Conditions co) OperatorProgressing
             && IsStatusConditionTrue c (Conditions co) OperatorFailing
          then kret None
          else
            let co := setVersions co (vStore_GetAll optr) in
            let* co := setMachineConfigPoolStatuses co in
            let* _updated, err :=
              request (CUpdateStatus co) (fun l => updateStatusCO c l co) in
            kret err
      end
  end.

Definition syncAvailableStatus : K (option error) :=
  let* co, err := fetchClusterOperator in
  match err with
  | Some e => kret (Some e)
  | None =>
      match co with
      | None => kret None
      | Some co =>
          let optrVersion := fst (vStore_Get optr "operator") in
          let failing :=
            IsStatusConditionTrue c (Conditions co) OperatorFailing in
          let coStatus :=
            if failing then
              condition OperatorAvailable ConditionFalse
                ("Cluster not available for " +:+ optrVersion)
            else
              condition OperatorAvailable ConditionTrue
                ("Cluster has deployed " +:+ optrVersion) in
          updateStatus co coStatus
      end
  end.

Definition syncProgressingStatus : K (option error) :=
  let* co, err := fetchClusterOperator in
  match err with
  | Some e => kret (Some e)
  | None =>
      match co with
      | None => kret None
      | Some co =>
          let optrVersion := fst (vStore_Get optr "operator") in
          let coStatus :=
            if vStore_Equal optr (Versions co) then
              if inClusterBringup optr then
                condition OperatorProgressing ConditionTrue
                  ("Cluster is bootstrapping " +:+ optrVersion)
              else
                condition OperatorProgressing ConditionFalse
                  ("Cluster version is " +:+ optrVersion)
            else
              condition OperatorProgressing ConditionTrue
                ("Working towards " +:+ optrVersion) in
          updateStatus co coStatus
      end
  end.

Definition syncFailingStatus (ierr : option error) : K (option error) :=
  let* co, err := fetchClusterOperator in
  match err with
  | Some e => kret (Some e)
  | None =>
      match co with
      | None => kret None
      | Some co =>
          let optrVersion := fst (vStore_Get optr "operator") in
          match ierr with
          | None =>
              updateStatus co
                {| Type_ := OperatorFailing; Status := ConditionFalse;
                   LastTransitionTime := 0%Z; Reason := ""; Message := "" |}
          | Some ie =>
              let message :=
                if vStore_Equal optr (Versions co) then
                  "Failed to resync " +:+ optrVersion +:+ " because: "
                    +:+ Error ie
                else "Unable to apply " +:+ optrVersion +:+ ": " +:+ Error ie in
              let* co :=
                (if IsStatusConditionTrue c (Conditions co) OperatorProgressing
                 then setStatusCondition co
                        (condition OperatorProgressing ConditionTrue
                           ("Unable to apply " +:+ optrVersion))
                 else setStatusCondition co
                        (condition OperatorProgressing ConditionFalse
                           ("Error while reconciling " +:+ optrVersion))) in
              updateStatus co
                {| Type_ := OperatorFailing; Status := ConditionTrue;
                   LastTransitionTime := 0%Z; Reason := Error ie;
                   Message := message |}
          end
      end
  end.

End WithCluster.
End Sync.

(** ** Notions for the properties of the operator *)

Module OperatorSpec.
Import Operator.

(** The config [mcName] passes the check of the pool whose generated config
    is [generated]: the getter finds it, and its annotation [key] is the
    version, or it has no such annotation and is not the generated config. *)
Definition acceptable (key generated version : string)
    (machineConfigGetter : string -> option MachineConfig * option error)
    (mcName : string) : Prop :=
  exists mc,
    machineConfigGetter mcName = (Some mc, None) /\
    (Annotations mc !! key = Some version \/
     Annotations mc !! key = None /\ mcName <> generated).

(** The last pool of [pools] with the name [n] that [valid] accepts. *)
Definition lastValid {Condition : Type}
    (valid : MachineConfigPool Condition -> outcome (option error))
    (pools : list (MachineConfigPool Condition)) (n : string)
    : option (MachineConfigPool Condition) :=
  List.find (fun p => match valid p with
                      | Val None => String.eqb (PoolName p) n
                      | _ => false
                      end) (rev pools).

(** [valid] panics on no pool of [pools]. *)
Definition noPanic {Condition : Type}
    (valid : MachineConfigPool Condition -> outcome (option error))
    (pools : list (MachineConfigPool Condition)) : Prop :=
  Forall (fun p => exists res, valid p = Val res) pools.

(** Examples: a rendered config made by the controller at version [v1], a
    fragment of a user without annotation, and two pools. *)
Definition key : string :=
  "machineconfiguration.openshift.io/generated-by-controller-version".

Definition rendered : MachineConfig := {| Annotations := {[ key := "v1" ]} |}.
Definition userFragment : MachineConfig := {| Annotations := ∅ |}.

Definition getter (mcName : string) : option MachineConfig * option error :=
  if String.eqb mcName "rendered-worker" then (Some rendered, None)
  else if String.eqb mcName "99-user" then (Some userFragment, None)
  else (None, Some (errorString ("machineconfig " +:+ mcName +:+ " not found"))).

Definition worker : MachineConfigPool unit :=
  {| PoolName := "worker"; ConfigurationName := "rendered-worker";
     ConfigurationSource := ["99-user"]; PoolConditions := [];
     MachineCount := 3%Z; UpdatedMachineCount := 1%Z |}.

Definition master : MachineConfigPool unit :=
  {| PoolName := "master"; ConfigurationName := "rendered-master";
     ConfigurationSource := ["99-user"]; PoolConditions := [];
     MachineCount := 3%Z; UpdatedMachineCount := 3%Z |}.

End OperatorSpec.

(** An example cluster: the ClusterOperator object [existing] is there or
    not, every write succeeds, the pools [worker] and [master] are listed,
    and a condition of the object is found by its type. *)
Module Cluster.
Import Operator OperatorSpec Sync.

Definition isTrue (conditions : list ClusterOperatorStatusCondition)
    (type : string) : bool :=
  existsb (fun x => String.eqb (Type_ x) type && String.eqb (Status x) "True")
    conditions.

Definition find (conditions : list ClusterOperatorStatusCondition)
    (type : string) : option ClusterOperatorStatusCondition :=
  List.find (fun x => String.eqb (Type_ x) type) conditions.

Definition gone : error := errorString "clusteroperators not found".
Definition noKind : error := errorString "no matches for kind ClusterOperator".
Definition refused : error := errorString "connection refused".

Definition cluster (answer : option (ClusterOperator string) * option error)
    (poolsErr : option error) : Sync.Cluster (Version := string) :=
  {| getCO := fun _ _ => answer;
     createCO := fun _ co => (None, Some refused);
     updateStatusCO := fun _ co => (Some co, None);
     listPools := fun _ => ([worker; master], poolsErr);
     getMC := getter;
     now := fun l => Z.of_nat (length l);
     noKindMatch := fun e => String.eqb (Error e) (Error noKind);
     notFound := fun e => String.eqb (Error e) (Error gone);
     IsStatusConditionTrue := isTrue;
     FindStatusCondition := find;
     SetStatusCondition := fun _ conditions x => conditions ++ [x];
     jsonMarshal := fun m => ("{}", None);
     isPoolConditionTrue := fun (_ : list unit) (_ : unit) => true;
     MachineConfigPoolUpdated := tt;
     MachineConfigPoolUpdating := tt;
     GeneratedByControllerVersionAnnotationKey := key;
     controllerVersion := "v1" |}.

Definition optr : Sync.Operator (Version := string) :=
  {| name := "machine-config"; inClusterBringup := false;
     vStore_GetAll := ["v1"];
     vStore_Get := fun _ => ("v1", true);
     vStore_Equal := fun versions =>
       match versions with ["v1"] => true | _ => false end |}.

(** The object while an upgrade is failing, and an object without any
    condition. *)
Definition failingUpgrade : ClusterOperator string :=
  {| ObjectName := "machine-config";
     Conditions := [condition OperatorProgressing ConditionTrue "";
                    condition OperatorFailing ConditionTrue ""];
     Versions := ["v0"]; RelatedObjects := []; ExtensionRaw := "" |}.

Definition bare : ClusterOperator string :=
  {| ObjectName := "machine-config"; Conditions := [];
     Versions := ["v0"]; RelatedObjects := []; ExtensionRaw := "old" |}.

End Cluster.

(** The four synchronisations, for statements about all of them. *)
Definition syncs {Version PoolCondition PoolCondType : Type}
    (c : Sync.Cluster (Version := Version) (PoolCondition := PoolCondition)
           (PoolCondType := PoolCondType))
    (optr : Sync.Operator (Version := Version)) (ierr : option error)
    : list (Sync.K (option error)) :=
  [Sync.syncVersion c optr; Sync.syncAvailableStatus c optr;
   Sync.syncProgressingStatus c optr; Sync.syncFailingStatus c optr ierr].

(** The object that [initializeClusterOperator] asks the API server to
    create. *)
Definition created {Version : Type} (name : string)
    : Sync.ClusterOperator Version :=
  {| Sync.ObjectName := name; Sync.Conditions := []; Sync.Versions := [];
     Sync.RelatedObjects := []; Sync.ExtensionRaw := "" |}.


(** ** Properties *)

Import GoStrings.

(** stdpp never unfolds [String.append] under [simpl]; the proofs below
    compute with it. *)
#[local] Arguments String.append !s1 s2 : simpl nomatch.

(** *** The stub *)

(** C8: on the stub, [Rebase], [SetKernelArgs], [RemovePendingDeployment] and
    [RunRpmOstree] all return the one sentinel [ErrNotCoreosVariant] and leave
    the history as it was (no event, so no external command), and
    [GetBootedDeployment] returns the zero-value deployment and no error. *)
Theorem stub_operations_uniform (w : World) (CmdLineFile : string)
    (noCos : NotCoreOS.notCoreOSClient) (a b noun : string)
    (kargs : list KernelArgument) (args : list string) (h : history) :
  let stub := notCoreOSClient_updater w CmdLineFile in
  Rebase (NodeUpdaterClient := stub) noCos a b h
    = (Val (false, Some NotCoreOS.ErrNotCoreosVariant), h) /\
  SetKernelArgs (NodeUpdaterClient := stub) noCos kargs h
    = (Val ("unsupported", Some NotCoreOS.ErrNotCoreosVariant), h) /\
  RemovePendingDeployment (NodeUpdaterClient := stub) noCos h
    = (Val (Some NotCoreOS.ErrNotCoreosVariant), h) /\
  RunRpmOstree (NodeUpdaterClient := stub) noCos noun args h
    = (Val ("", Some NotCoreOS.ErrNotCoreosVariant), h) /\
  GetBootedDeployment (NodeUpdaterClient := stub) noCos h
    = (Val (Some zeroDeployment, None), h).
Proof. repeat split. Qed.

(** *** The booted deployment *)

Lemma bootedLoop_first (pre post : list RpmOstreeDeployment)
    (d : RpmOstreeDeployment) :
  Forall (fun x => Booted x = false) pre -> Booted d = true ->
  RpmOstree.bootedLoop (pre ++ d :: post) = (Some d, None).
Proof.
  intros Hpre Hd. induction Hpre as [|x pre Hx _ IH]; simpl.
  - now rewrite Hd.
  - now rewrite Hx.
Qed.

Lemma bootedLoop_none (ds : list RpmOstreeDeployment) :
  Forall (fun x => Booted x = false) ds ->
  RpmOstree.bootedLoop ds
    = (None, Some (errorString "not currently booted in a deployment")).
Proof.
  induction 1 as [|x ds Hx _ IH]; simpl; [reflexivity|now rewrite Hx].
Qed.

(** C2: when the status query succeeds and its output parses, the first
    deployment with [Booted] set is returned (every deployment in front of it
    has the flag off), and when no deployment has the flag set the result is
    no deployment and the error [not currently booted in a deployment]. *)
Theorem GetBootedDeployment_first_booted (w : World) (r : RpmOstreeClient)
    (h h' : history) (output : string) (rosState : rpmOstreeState) :
  RpmOstree.RunRpmOstree r "status" ["--json"] h = (Val (output, None), h') ->
  unmarshalState w output = (rosState, None) ->
  (forall pre d post,
     Deployments rosState = pre ++ d :: post ->
     Forall (fun x => Booted x = false) pre -> Booted d = true ->
     RpmOstree.GetBootedDeployment w r h = (Val (Some d, None), h')) /\
  (Forall (fun x => Booted x = false) (Deployments rosState) ->
   RpmOstree.GetBootedDeployment w r h
     = (Val (None, Some (errorString "not currently booted in a deployment")),
        h') /\
   Error (errorString "not currently booted in a deployment")
     = "not currently booted in a deployment").
Proof.
  intros Hrun Hparse.
  assert (Hget : RpmOstree.GetBootedDeployment w r h
                 = (Val (RpmOstree.bootedLoop (Deployments rosState)), h')).
  { unfold RpmOstree.GetBootedDeployment, bind. rewrite Hrun, Hparse.
    reflexivity. }
  split.
  - intros pre d post Hds Hpre Hd.
    rewrite Hget, Hds, (bootedLoop_first pre post d Hpre Hd). reflexivity.
  - intros Hnone. split; [|reflexivity].
    rewrite Hget, (bootedLoop_none _ Hnone). reflexivity.
Qed.

Lemma GetBootedDeployment_first_booted_witness :
  let w := Example.world ∅ "" "" in
  let r := mockClient (Example.reply "{}") in
  RpmOstree.GetBootedDeployment w r []
    = (Val (Some Example.bootedDeployment, None),
       [ECommander "status" ["--json"]]).
Proof.
  intros w r.
  apply (proj1 (GetBootedDeployment_first_booted w r []
                  [ECommander "status" ["--json"]] "{}"
                  {| Deployments := [Example.rollbackDeployment;
                                     Example.bootedDeployment] |}
                  eq_refl eq_refl)
           [Example.rollbackDeployment] Example.bootedDeployment []).
  - reflexivity.
  - repeat constructor.
  - reflexivity.
Defined.

(** *** The custom origin *)









(** *** The rpm-ostree wrapper *)

Lemma runRpmOstree_long (w : World) (noun : string) (args : list string)
    (h : history) :
  2 < length args ->
  RpmOstree.runRpmOstree w noun args h = (Val ("", Some malformed), h).
Proof.
  intros Hlen. unfold RpmOstree.runRpmOstree.
  destruct (Nat.ltb_spec 2 (length args)); [reflexivity|lia].
Qed.

(** C9, amended: [runRpmOstree] given more than two arguments after the noun
    returns the malformed-command error and performs nothing.  The invocation
    made by [Rebase] has six such arguments, so it returns that error; [Rebase] past
    the inspection of an image with a commit label therefore returns it after
    running nothing but the deferred [podman rmi]; and [SetKernelArgs] of a
    client that is not mocked, with three or more queued flags, returns it at
    the history where the flags were queued. *)
Theorem runRpmOstree_rejects_more_than_two_args (w : World) :
  (forall noun args h,
     2 < length args ->
     RpmOstree.runRpmOstree w noun args h = (Val ("", Some malformed), h)) /\
  (forall repo csum imgURL h,
     length (tl (RpmOstree.Rebase_args repo csum imgURL)) = 6 /\
     RpmOstree.runRpmOstree w (hd "" (RpmOstree.Rebase_args repo csum imgURL))
       (tl (RpmOstree.Rebase_args repo csum imgURL)) h
       = (Val ("", Some malformed), h)) /\
  (forall imgURL osImageContentDir csum h,
     String.eqb csum "" = false ->
     RpmOstree.Rebase_pivot w imgURL osImageContentDir csum h
       = (Val (true, Some malformed), h ++ [EExec "podman" ["rmi"; imgURL]])) /\
  (forall args kargs h h1,
     RpmOstree.kargsOfArgs (RpmOstree.realClient w) args [] h
       = (Val (kargs, None), h1) ->
     3 <= length kargs ->
     RpmOstree.SetKernelArgs (RpmOstree.realClient w) args h
       = (Val ("", Some malformed), h1)).
Proof.
  split; [|split; [|split]].
  - intros noun args h. apply runRpmOstree_long.
  - intros repo csum imgURL h. split; [reflexivity|].
    apply runRpmOstree_long. simpl. lia.
  - intros imgURL dir csum h Hcsum.
    unfold RpmOstree.Rebase_pivot, RpmOstree.Rebase_pivot_with, defer, bind. rewrite Hcsum. reflexivity.
  - intros args kargs h h1 Hq Hlen.
    unfold RpmOstree.SetKernelArgs, bind. rewrite Hq.
    destruct kargs as [|k1 [|k2 [|k3 kargs]]]; simpl in Hlen; try lia.
    reflexivity.
Qed.

(** C9 as stated counts five arguments after the noun in the invocation made
    by [Rebase]: there are six. *)
Lemma Rebase_invocation_has_six_args :
  tl (RpmOstree.Rebase_args "/run/mco/srv/repo" "c0ffee" "quay.io/os@sha256:1")
    = ["--experimental"; "/run/mco/srv/repo:c0ffee";
       "--custom-origin-url"; "pivot://quay.io/os@sha256:1";
       "--custom-origin-description"; "Managed by machine-config-operator"] /\
  length (tl (RpmOstree.Rebase_args "/run/mco/srv/repo" "c0ffee"
                "quay.io/os@sha256:1")) <> 5.
Proof. split; [reflexivity|discriminate]. Qed.

(** *** Tokens *)



Lemma list_ascii_of_string_app (a b : string) :
  list_ascii_of_string (a +:+ b) = list_ascii_of_string a ++ list_ascii_of_string b.
Proof. induction a as [|c a IH]; simpl; [reflexivity|now rewrite IH]. Qed.

Lemma piecesFrom_nonempty boundary i l : Spec.piecesFrom boundary i l <> [].
Proof.
  revert i; induction l as [|c l IH]; intros i; simpl; [discriminate|].
  destruct (boundary i); [discriminate|].
  destruct (Spec.piecesFrom boundary (S i) l); discriminate.
Qed.

Lemma prepend_prepend cur c ps : ps <> [] ->
  prepend cur (match ps with p :: ps' => (c :: p) :: ps' | [] => [[c]] end)
  = prepend (cur ++ [c]) ps.
Proof. destruct ps as [|p ps]; [congruence|]. intros _. simpl. now rewrite <- app_assoc. Qed.

Lemma fieldsFrom_pieces (s : string) : forall (pre : list ascii) (cur : string),
  fieldsFrom RpmOstree.quoteSpaceSplit_f
    (Nat.odd (count_occ ascii_dec pre Spec.dquote)) cur s
  = render (prepend (list_ascii_of_string cur)
              (Spec.piecesFrom (Spec.tokenBoundary (pre ++ list_ascii_of_string s))
                 (length pre) (list_ascii_of_string s))).
Proof.
  induction s as [|c s IH]; intros pre cur.
  - simpl. rewrite app_nil_r. unfold render. simpl.
    destruct cur as [|c cur]; simpl; [reflexivity|].
    now rewrite string_of_list_ascii_of_string.
  - cbn [fieldsFrom list_ascii_of_string Spec.piecesFrom].
    assert (Hb : Spec.tokenBoundary (pre ++ c :: list_ascii_of_string s) (length pre)
                 = Ascii.eqb c " "%char && negb (Nat.odd (count_occ ascii_dec pre Spec.dquote))).
    { unfold Spec.tokenBoundary, Spec.insideQuotes.
      rewrite nth_error_app2 by lia. rewrite Nat.sub_diag. simpl.
      rewrite firstn_app, Nat.sub_diag, firstn_all. simpl. now rewrite app_nil_r. }
    rewrite Hb.
    assert (Hq : Nat.odd (count_occ ascii_dec (pre ++ [c]) Spec.dquote)
                 = if Ascii.eqb c "034"%char then negb (Nat.odd (count_occ ascii_dec pre Spec.dquote))
                   else Nat.odd (count_occ ascii_dec pre Spec.dquote)).
    { rewrite count_occ_app. simpl. destruct (Ascii.eqb_spec c "034"%char) as [->|Hne].
      - unfold Spec.dquote. destruct (ascii_dec _ _); [|congruence].
        rewrite Nat.add_1_r, Nat.odd_succ, <- Nat.negb_odd. reflexivity.
      - unfold Spec.dquote. destruct (ascii_dec c _); [contradiction|]. now rewrite Nat.add_0_r. }
    specialize (IH (pre ++ [c])). rewrite <- app_assoc in IH. simpl in IH.
    rewrite length_app in IH. simpl in IH. rewrite Nat.add_1_r in IH.
    unfold RpmOstree.quoteSpaceSplit_f. rewrite <- Hq.
    pose proof (piecesFrom_nonempty
                  (Spec.tokenBoundary (pre ++ c :: list_ascii_of_string s))
                  (S (length pre)) (list_ascii_of_string s)) as HP.
    revert IH HP Hq.
    generalize (Spec.piecesFrom
                  (Spec.tokenBoundary (pre ++ c :: list_ascii_of_string s))
                  (S (length pre)) (list_ascii_of_string s)) as P.
    generalize (Nat.odd (count_occ ascii_dec (pre ++ [c]) Spec.dquote)) as q'.
    generalize (Nat.odd (count_occ ascii_dec pre Spec.dquote)) as q.
    intros q q' P IH HP Hq.
    destruct (Ascii.eqb_spec c " "%char) as [->|Hsp].
    + simpl in Hq. subst q'. destruct q; simpl.
      * rewrite IH, list_ascii_of_string_app. simpl.
        now rewrite prepend_prepend.
      * destruct P as [|p ps]; [congruence|].
        unfold render. simpl. rewrite app_nil_r.
        destruct cur as [|c' cur]; simpl.
        -- rewrite IH. reflexivity.
        -- rewrite IH, string_of_list_ascii_of_string. reflexivity.
    + rewrite !andb_false_r. simpl. rewrite IH, list_ascii_of_string_app. simpl.
      now rewrite prepend_prepend.
Qed.

Lemma quoteSpaceSplit_tokens s : RpmOstree.quoteSpaceSplit s = Spec.tokens s.
Proof.
  unfold RpmOstree.quoteSpaceSplit, FieldsFunc, Spec.tokens.
  change false with (Nat.odd (count_occ ascii_dec [] Spec.dquote)).
  rewrite (fieldsFrom_pieces s [] ""). simpl.
  destruct (Spec.piecesFrom _ _ _) eqn:Hp; [now apply piecesFrom_nonempty in Hp|]. reflexivity.
Qed.

Lemma piecesFrom_no_boundary (boundary : nat -> bool) (l : list ascii) :
  forall i, (forall j, boundary j = false) ->
  Spec.piecesFrom boundary i l = [l].
Proof.
  induction l as [|c l IH]; intros i Hb; simpl; [reflexivity|].
  now rewrite Hb, (IH (S i) Hb).
Qed.

(** A string that is not empty and has no token boundary is one token,
    whatever spaces it has inside double quotes. *)
Lemma quoteSpaceSplit_one_token (tok : string) :
  tok <> "" ->
  (forall i, Spec.tokenBoundary (list_ascii_of_string tok) i = false) ->
  RpmOstree.quoteSpaceSplit tok = [tok].
Proof.
  intros Hne Hb. rewrite quoteSpaceSplit_tokens. unfold Spec.tokens.
  rewrite (piecesFrom_no_boundary _ _ 0 Hb). simpl.
  destruct tok as [|c tok]; [congruence|]. simpl.
  now rewrite string_of_list_ascii_of_string.
Qed.

(** C7: when the kernel-argument query succeeds with output [out],
    [GetKernelArgs] returns the tokens of [out] in the sense of [Spec.tokens]:
    [out] is cut at exactly the spaces in front of which an even number of
    double quotes stands (the spaces outside a double-quoted span), and the
    pieces that are not empty are the tokens.  So a string with no such space
    comes back as one token, the spaces inside its double quotes kept. *)
Theorem GetKernelArgs_quote_aware (r : RpmOstreeClient) (h h' : history)
    (out : string) :
  RpmOstree.RunRpmOstree r "kargs" [] h = (Val (out, None), h') ->
  RpmOstree.GetKernelArgs r h = (Val (Spec.tokens out, None), h') /\
  RpmOstree.quoteSpaceSplit out = Spec.tokens out /\
  (forall tok,
     tok <> "" ->
     (forall i, Spec.tokenBoundary (list_ascii_of_string tok) i = false) ->
     RpmOstree.quoteSpaceSplit tok = [tok]).
Proof.
  intros Hrun. split; [|split].
  - unfold RpmOstree.GetKernelArgs, bind. rewrite Hrun. simpl.
    now rewrite quoteSpaceSplit_tokens.
  - apply quoteSpaceSplit_tokens.
  - apply quoteSpaceSplit_one_token.
Qed.

Lemma GetKernelArgs_quote_aware_witness :
  RpmOstree.GetKernelArgs (mockClient (Example.reply Quoted.line)) []
    = (Val ([Quoted.yippie; "baz"; "foo"], None), [kargsQuery]).
Proof.
  exact (proj1 (GetKernelArgs_quote_aware
                  (mockClient (Example.reply Quoted.line)) [] [kargsQuery]
                  Quoted.line eq_refl)).
Defined.

(** *** Composite arguments *)

Lemma string_length_app (a b : string) :
  String.length (a +:+ b) = String.length a + String.length b.
Proof. induction a as [|c a IH]; simpl; [reflexivity|now rewrite IH]. Qed.

Lemma string_app_assoc (a b c : string) : (a +:+ b) +:+ c = a +:+ (b +:+ c).
Proof. induction a as [|x a IH]; simpl; [reflexivity|now rewrite IH]. Qed.

Lemma string_app_nil_r (a : string) : a +:+ "" = a.
Proof. induction a as [|x a IH]; simpl; [reflexivity|now rewrite IH]. Qed.

Lemma fieldsFrom_length (s : string) : forall (quoted : bool) (cur : string),
  totalLength (fieldsFrom RpmOstree.quoteSpaceSplit_f quoted cur s)
    + separators quoted s
  = String.length cur + String.length s.
Proof.
  induction s as [|c s IH]; intros quoted cur.
  - destruct cur; simpl; lia.
  - cbn [fieldsFrom separators].
    destruct (RpmOstree.quoteSpaceSplit_f quoted c) as [sep quoted'].
    destruct sep.
    + destruct cur as [|c' cur].
      * specialize (IH quoted' ""). simpl in *. lia.
      * specialize (IH quoted' ""). simpl in *. lia.
    + specialize (IH quoted' (cur +:+ String c "")).
      rewrite string_length_app in IH. simpl in *. lia.
Qed.

Lemma fieldsFrom_no_separator (s t : string) :
  forall (quoted : bool) (cur : string),
  separators quoted s = 0 ->
  fieldsFrom RpmOstree.quoteSpaceSplit_f quoted cur (s +:+ t)
  = fieldsFrom RpmOstree.quoteSpaceSplit_f (endState quoted s) (cur +:+ s) t.
Proof.
  induction s as [|c s IH]; intros quoted cur Hsep.
  - simpl. now rewrite string_app_nil_r.
  - cbn [fieldsFrom separators endState String.append String.app] in *.
    destruct (RpmOstree.quoteSpaceSplit_f quoted c) as [sep quoted'] eqn:Hf.
    destruct sep; [simpl in Hsep; lia|]. simpl in Hsep. simpl snd.
    rewrite (IH quoted' (cur +:+ String c "") Hsep).
    now rewrite string_app_assoc.
Qed.

Lemma endState_count (s : string) : forall quoted,
  endState quoted s
  = xorb quoted
      (Nat.odd (count_occ ascii_dec (list_ascii_of_string s) Spec.dquote)).
Proof.
  induction s as [|c s IH]; intros quoted; simpl.
  - now rewrite xorb_false_r.
  - rewrite IH. unfold Spec.dquote.
    destruct (Ascii.eqb_spec c "034"%char) as [->|Hne].
    + destruct (ascii_dec _ _); [|congruence].
      rewrite Nat.odd_succ, <- Nat.negb_odd.
      destruct quoted, (Nat.odd _); reflexivity.
    + destruct (ascii_dec c _); [contradiction|reflexivity].
Qed.

Lemma isToken_no_separator (a : string) :
  isToken a -> a <> "" /\ separators false a = 0.
Proof.
  unfold isToken, RpmOstree.quoteSpaceSplit, FieldsFunc. intros Ha.
  pose proof (fieldsFrom_length a false "") as Hlen.
  rewrite Ha in Hlen. simpl in Hlen. split; [|lia].
  intros ->. discriminate Ha.
Qed.

(** Two single tokens with a space between them are split into the two, as
    long as the first one closes its double quotes. *)
Lemma quoteSpaceSplit_composite (a b : string) :
  isToken a -> isToken b -> quotesClosed a ->
  RpmOstree.quoteSpaceSplit (a +:+ " " +:+ b) = [a; b].
Proof.
  intros Ha Hb Hq. destruct (isToken_no_separator a Ha) as [Hne Hsep].
  unfold RpmOstree.quoteSpaceSplit, FieldsFunc.
  rewrite (fieldsFrom_no_separator a _ false "" Hsep).
  rewrite endState_count. unfold quotesClosed in Hq.
  rewrite <- Nat.negb_even, Hq. simpl.
  destruct a as [|c a]; [congruence|]. f_equal. exact Hb.
Qed.

(** C4, amended: for single tokens [a] and [b], where [a] closes its double
    quotes, and for every operation, the one request [a b] queues the same
    flags as the two requests [a] and [b], and [SetKernelArgs] on either does
    the same to the host and returns the same, for every commander. *)
Theorem SetKernelArgs_composite_expansion (r : RpmOstreeClient)
    (operation : Z) (a b : string) (h : history) :
  isToken a -> isToken b -> quotesClosed a ->
  RpmOstree.kargsOfArgs r
    [{| Operation := operation; Name := a +:+ " " +:+ b |}] [] h
  = RpmOstree.kargsOfArgs r
      [{| Operation := operation; Name := a |};
       {| Operation := operation; Name := b |}] [] h /\
  RpmOstree.SetKernelArgs r
    [{| Operation := operation; Name := a +:+ " " +:+ b |}] h
  = RpmOstree.SetKernelArgs r
      [{| Operation := operation; Name := a |};
       {| Operation := operation; Name := b |}] h.
Proof.
  intros Ha Hb Hq.
  assert (Hloop :
    RpmOstree.kargsOfArgs r
      [{| Operation := operation; Name := a +:+ " " +:+ b |}] [] h
    = RpmOstree.kargsOfArgs r
        [{| Operation := operation; Name := a |};
         {| Operation := operation; Name := b |}] [] h).
  { cbn [RpmOstree.kargsOfArgs Operation Name].
    rewrite (quoteSpaceSplit_composite a b Ha Hb Hq).
    unfold isToken in Ha, Hb. rewrite Ha, Hb.
    cbn [RpmOstree.kargsOfTokens].
    destruct (Z.eqb operation kargAdd) eqn:HA.
    - reflexivity.
    - destruct (Z.eqb operation kargRemove) eqn:HR; [|reflexivity].
      unfold bind, ret.
      destruct (RpmOstree.isKernelArgInUse r a h)
        as [[[inUse [e|]]|msg] h1]; reflexivity. }
  split; [exact Hloop|].
  unfold RpmOstree.SetKernelArgs, bind. now rewrite Hloop.
Qed.

Lemma SetKernelArgs_composite_expansion_witness :
  let r := mockClient (Example.reply "quiet") in
  RpmOstree.SetKernelArgs r
    [{| Operation := kargAdd; Name := "a=1 b=2" |}] []
  = RpmOstree.SetKernelArgs r
      [{| Operation := kargAdd; Name := "a=1" |};
       {| Operation := kargAdd; Name := "b=2" |}] [].
Proof.
  exact (proj2 (SetKernelArgs_composite_expansion
                  (mockClient (Example.reply "quiet")) kargAdd "a=1" "b=2" []
                  eq_refl eq_refl eq_refl)).
Defined.

(** C4 as stated fails for a first token that leaves a double quote open:
    the space after it is inside the quotes, and the composite stays one
    token. *)
Lemma composite_with_open_quote_is_one_token :
  isToken Quoted.dangling /\ isToken "z" /\
  fst (RpmOstree.kargsOfArgs (mockClient (Example.reply "quiet"))
         [{| Operation := kargAdd; Name := Quoted.dangling +:+ " " +:+ "z" |}]
         [] [])
    = Val (["--append=" +:+ Quoted.dangling +:+ " z"], None) /\
  fst (RpmOstree.kargsOfArgs (mockClient (Example.reply "quiet"))
         [{| Operation := kargAdd; Name := Quoted.dangling |};
          {| Operation := kargAdd; Name := "z" |}] [] [])
    = Val (["--append=" +:+ Quoted.dangling; "--append=z"], None) /\
  RpmOstree.SetKernelArgs (mockClient (Example.reply "quiet"))
    [{| Operation := kargAdd; Name := Quoted.dangling +:+ " " +:+ "z" |}] []
  <> RpmOstree.SetKernelArgs (mockClient (Example.reply "quiet"))
       [{| Operation := kargAdd; Name := Quoted.dangling |};
        {| Operation := kargAdd; Name := "z" |}] [].
Proof. repeat split; discriminate. Qed.

(** *** Setting kernel arguments *)

Section AnyCommander.
Context (r : RpmOstreeClient).







End AnyCommander.






(** *** References of the local repository *)

Lemma space2_not_ascii (c1 c2 : ascii) :
  space2 c1 c2 = true -> asciiSpace c1 = false.
Proof.
  unfold space2, asciiSpace. intros H.
  apply andb_true_iff in H. destruct H as [H _].
  apply Nat.eqb_eq in H. rewrite H. reflexivity.
Qed.

Lemma space3_not_shorter (c1 c2 c3 : ascii) :
  space3 c1 c2 c3 = true -> asciiSpace c1 = false /\ space2 c1 c2 = false.
Proof.
  unfold space3, space2, asciiSpace. intros H.
  repeat (apply orb_true_iff in H; destruct H as [H|H]);
    repeat (apply andb_true_iff in H; destruct H as [H ?]);
    apply Nat.eqb_eq in H; rewrite H; split; reflexivity.
Qed.

Lemma trimLeft_whiteSpace (l : list ascii) : whiteSpace l -> trimLeft l = [].
Proof.
  induction 1 as [|c l Hc _ IH|c1 c2 l Hc _ IH|c1 c2 c3 l Hc _ IH].
  - reflexivity.
  - simpl. now rewrite Hc.
  - simpl. now rewrite (space2_not_ascii c1 c2 Hc), Hc.
  - destruct (space3_not_shorter c1 c2 c3 Hc) as [H1 H2].
    simpl. now rewrite H1, H2, Hc.
Qed.

Lemma TrimSpace_whiteSpace (s : string) :
  whiteSpace (list_ascii_of_string s) -> TrimSpace s = "".
Proof.
  intros Hs. unfold TrimSpace. now rewrite (trimLeft_whiteSpace _ Hs).
Qed.

Lemma Split_length (s : string) (sep : ascii) : 1 <= length (Split s sep).
Proof.
  induction s as [|c s IH]; simpl; [lia|].
  destruct (Ascii.eqb c sep); simpl; [lia|].
  destruct (Split s sep); simpl; lia.
Qed.

Lemma runGetOut_run (w : World) (command : string) (args : list string)
    (h : history) :
  RpmOstree.runGetOut w command args h
  = (Val (match combinedOutput w h command args with
          | (rawOut, Some e) =>
              ("", Some (Wrapf e ("error running " +:+ command +:+ " " +:+
                                    Join args " " +:+ ": " +:+ rawOut)))
          | (rawOut, None) => (rawOut, None)
          end),
     h ++ [EExec command args]).
Proof.
  unfold RpmOstree.runGetOut, bind, perform, ret.
  destruct (combinedOutput w h command args) as [rawOut [e|]]; reflexivity.
Qed.

Lemma Rebase_refs_single (w : World) (repo refText ref : string)
    (h : history) :
  combinedOutput w h "ostree" (refsArgs repo) = (refText, None) ->
  Split (TrimSpace refText) "010"%char = [ref] ->
  RpmOstree.Rebase_refs w repo h
  = (Val (resolved w repo ref (h ++ [EExec "ostree" (refsArgs repo)])),
     h ++ [EExec "ostree" (refsArgs repo);
           EExec "ostree" (revParseArgs repo ref)]).
Proof.
  intros Hrefs Hsplit. unfold RpmOstree.Rebase_refs, bind.
  rewrite runGetOut_run. fold (refsArgs repo). rewrite Hrefs, Hsplit.
  cbn [length Nat.eqb nth]. rewrite runGetOut_run.
  fold (revParseArgs repo ref). unfold resolved.
  destruct (combinedOutput w _ "ostree" (revParseArgs repo ref))
    as [rawOut [e|]]; unfold ret; rewrite <- app_assoc; reflexivity.
Qed.

Lemma Rebase_refs_multiple (w : World) (repo refText : string) (h : history) :
  combinedOutput w h "ostree" (refsArgs repo) = (refText, None) ->
  1 < length (Split (TrimSpace refText) "010"%char) ->
  RpmOstree.Rebase_refs w repo h
  = (Val ("", Some (errorString "multiple refs found in repo")),
     h ++ [EExec "ostree" (refsArgs repo)]).
Proof.
  intros Hrefs Hlen. unfold RpmOstree.Rebase_refs, bind.
  rewrite runGetOut_run. fold (refsArgs repo). rewrite Hrefs.
  destruct (Nat.eqb_spec (length (Split (TrimSpace refText) "010"%char)) 1);
    [lia|].
  destruct (Nat.ltb_spec 1 (length (Split (TrimSpace refText) "010"%char)));
    [reflexivity|lia].
Qed.

Lemma Rebase_refs_never_no_refs (w : World) (repo : string) (h : history)
    (csum : string) (err : option error) (h' : history) :
  RpmOstree.Rebase_refs w repo h = (Val (csum, err), h') ->
  err <> Some (errorString "No refs found in repo").
Proof.
  unfold RpmOstree.Rebase_refs, bind. rewrite runGetOut_run.
  destruct (combinedOutput w h "ostree" ["refs"; "--repo"; repo])
    as [refText [e|]].
  - unfold ret. intros [= _ <- _]. discriminate.
  - pose proof (Split_length (TrimSpace refText) "010"%char) as Hlen.
    destruct (Nat.eqb_spec (length (Split (TrimSpace refText) "010"%char)) 1)
      as [H1|H1].
    + rewrite runGetOut_run.
      destruct (combinedOutput w _ "ostree" _) as [rawOut [e|]];
        unfold ret; intros [= _ <- _]; discriminate.
    + destruct (Nat.ltb_spec 1
                  (length (Split (TrimSpace refText) "010"%char)));
        [|lia].
      unfold ret. intros [= _ <- _]. discriminate.
Qed.

(** C10: when the listing of references succeeds and prints nothing but
    white space, the trimmed output split on newlines is the list of one
    empty string; the block then takes the branch of a single reference and
    runs [rev-parse] with the empty reference name, its result being that of
    [rev-parse]; and the error [No refs found in repo] is not returned. *)
Theorem Rebase_refs_empty_listing (w : World) (repo refText : string)
    (h : history) :
  combinedOutput w h "ostree" (refsArgs repo) = (refText, None) ->
  whiteSpace (list_ascii_of_string refText) ->
  Split (TrimSpace refText) "010"%char = [""] /\
  RpmOstree.Rebase_refs w repo h
  = (Val (resolved w repo "" (h ++ [EExec "ostree" (refsArgs repo)])),
     h ++ [EExec "ostree" (refsArgs repo);
           EExec "ostree" (revParseArgs repo "")]) /\
  snd (resolved w repo "" (h ++ [EExec "ostree" (refsArgs repo)]))
  <> Some (errorString "No refs found in repo").
Proof.
  intros Hrefs Hws.
  assert (Hsplit : Split (TrimSpace refText) "010"%char = [""])
    by now rewrite (TrimSpace_whiteSpace refText Hws).
  pose proof (Rebase_refs_single w repo refText "" h Hrefs Hsplit) as Hrun.
  split; [exact Hsplit|split; [exact Hrun|]].
  revert Hrun. destruct (resolved w repo "" _) as [csum err]. intros Hrun.
  exact (Rebase_refs_never_no_refs w repo h csum err _ Hrun).
Qed.

Lemma Rebase_refs_empty_listing_witness :
  let w := Example.world ∅ (" " +:+ newline) ("c0ffee" +:+ newline) in
  RpmOstree.Rebase_refs w "/run/mco/srv/repo" []
  = (Val ("c0ffee", None),
     [EExec "ostree" ["refs"; "--repo"; "/run/mco/srv/repo"];
      EExec "ostree" ["rev-parse"; "--repo"; "/run/mco/srv/repo"; ""]]).
Proof.
  intros w.
  refine (proj1 (proj2 (Rebase_refs_empty_listing w "/run/mco/srv/repo"
                          (" " +:+ newline) [] eq_refl _))).
  apply whiteSpace_ascii; [reflexivity|].
  apply whiteSpace_ascii; [reflexivity|]. apply whiteSpace_nil.
Defined.

(** *** Rebase *)

(** Errors met before the rebase command come back as they are, with
    [changed] false. *)
Lemma Rebase_booted_error (w : World) (r : RpmOstreeClient)
    (imgURL osImageContentDir : string) (h h' : history)
    (d : option RpmOstreeDeployment) (e : error) :
  RpmOstree.GetBootedDeployment w r h = (Val (d, Some e), h') ->
  RpmOstree.Rebase w r imgURL osImageContentDir h = (Val (false, Some e), h').
Proof.
  intros Hget. unfold RpmOstree.Rebase, RpmOstree.Rebase_with, bind. now rewrite Hget.
Qed.

Lemma Rebase_pivot_refs_error (w : World) (imgURL osImageContentDir : string)
    (h h' : history) (csum : string) (e : error) :
  RpmOstree.Rebase_refs w (osImageContentDir +:+ "/srv/repo") h
    = (Val (csum, Some e), h') ->
  RpmOstree.Rebase_pivot w imgURL osImageContentDir "" h
    = (Val (false, Some e), h' ++ [EExec "podman" ["rmi"; imgURL]]).
Proof.
  intros Hrefs. unfold RpmOstree.Rebase_pivot, RpmOstree.Rebase_pivot_with, defer, bind. simpl.
  now rewrite Hrefs.
Qed.

(** Past the resolution of the commit, [changed] is true and the error is
    that of [runRpmOstree], which is always the malformed-command error. *)
Lemma Rebase_pivot_result (w : World) (imgURL osImageContentDir csum : string)
    (h h' : history) (changed : bool) (err : option error) :
  RpmOstree.Rebase_pivot w imgURL osImageContentDir csum h
    = (Val (changed, err), h') ->
  (changed = true /\ err = Some malformed) \/
  (changed = false /\ exists e, err = Some e).
Proof.
  unfold RpmOstree.Rebase_pivot, RpmOstree.Rebase_pivot_with, defer, bind.
  destruct (String.eqb csum "").
  - destruct (RpmOstree.Rebase_refs w _ h) as [[[csum' [e|]]|msg] h1];
      simpl; intros [= <- <- _]; eauto.
  - simpl. intros [= <- <- _]. eauto.
Qed.

(** [Rebase] never returns without an error, and when it reports a change
    the error is the malformed-command error. *)
Lemma Rebase_result (w : World) (r : RpmOstreeClient)
    (imgURL osImageContentDir : string) (h h' : history)
    (changed : bool) (err : option error) :
  RpmOstree.Rebase w r imgURL osImageContentDir h
    = (Val (changed, err), h') ->
  (changed = true /\ err = Some malformed) \/
  (changed = false /\ exists e, err = Some e).
Proof.
  unfold RpmOstree.Rebase, RpmOstree.Rebase_with, bind, perform.
  destruct (RpmOstree.GetBootedDeployment w r h)
    as [[[[d|] [e|]]|msg] h1]; try (intros [= <- <- _]; now eauto);
    try discriminate.
  destruct (imageInspect w h1 imgURL) as [[labels|] [e|]].
  - destruct (RpmOstree.podmanInspect w imgURL _)
      as [[[[pd|] [e'|]]|msg] h2]; try (intros [= <- <- _]; now eauto);
      try discriminate.
    apply Rebase_pivot_result.
  - apply Rebase_pivot_result.
  - destruct (RpmOstree.podmanInspect w imgURL _)
      as [[[[pd|] [e'|]]|msg] h2]; try (intros [= <- <- _]; now eauto);
      try discriminate.
    apply Rebase_pivot_result.
  - discriminate.
Qed.

(** C1: a run of [Rebase] that reaches the rebase command.  The booted
    deployment is read, the image carries the commit label, and the result
    is [changed = true] together with an error: [changed] is set whatever
    [runRpmOstree] returned, and [runRpmOstree] refuses the six arguments of
    the rebase.  The only command run after the inspection is the deferred
    [podman rmi]. *)
Theorem Rebase_reports_change_with_error :
  RpmOstree.Rebase Hosts.labelled (RpmOstree.realClient Hosts.labelled)
    Hosts.imgURL Hosts.osImageContentDir []
  = (Val (true, Some malformed),
     [EExec realRpmOstreeCmd ["--json"];
      EImageInspect Hosts.imgURL;
      EExec "podman" ["rmi"; Hosts.imgURL]]).
Proof. vm_compute. reflexivity. Qed.

(** C5: a run of the fallback on a repository that lists no reference.  The
    image has no commit label and [ostree refs] prints nothing; the block
    does not fail: it runs [rev-parse] with the empty reference name and
    takes what it prints as the commit, and [Rebase] goes on to the rebase
    command. *)
Theorem Rebase_refs_zero_references :
  RpmOstree.Rebase_refs Hosts.emptyRepo Hosts.repo []
  = (Val ("c0ffee", None),
     [EExec "ostree" ["refs"; "--repo"; Hosts.repo];
      EExec "ostree" ["rev-parse"; "--repo"; Hosts.repo; ""]]) /\
  RpmOstree.Rebase Hosts.emptyRepo (RpmOstree.realClient Hosts.emptyRepo)
    Hosts.imgURL Hosts.osImageContentDir []
  = (Val (true, Some malformed),
     [EExec realRpmOstreeCmd ["--json"];
      EImageInspect Hosts.imgURL;
      EExec "ostree" ["refs"; "--repo"; Hosts.repo];
      EExec "ostree" ["rev-parse"; "--repo"; Hosts.repo; ""];
      EExec "podman" ["rmi"; Hosts.imgURL]]).
Proof. split; vm_compute; reflexivity. Qed.


(** Three flags queued for a client that is not mocked: nothing is run. *)
Lemma runRpmOstree_rejects_more_than_two_args_witness :
  RpmOstree.SetKernelArgs (RpmOstree.realClient Hosts.labelled)
    [{| Operation := kargAdd; Name := "nosmt quiet rw" |}] []
  = (Val ("", Some malformed), []).
Proof.
  refine (proj2 (proj2 (proj2 (runRpmOstree_rejects_more_than_two_args
                                 Hosts.labelled)))
            [{| Operation := kargAdd; Name := "nosmt quiet rw" |}]
            ["--append=nosmt"; "--append=quiet"; "--append=rw"] [] []
            eq_refl _).
  simpl. lia.
Defined.

(** ** Further properties *)

(** *** The tokenizer *)

(** X1: [quoteSpaceSplit] never returns an empty token, so the prefix test
    of [isKernelArgInUse] is never made with the empty string. *)
Theorem quoteSpaceSplit_no_empty_token (s : string) :
  Forall (fun tok => String.length tok <> 0) (RpmOstree.quoteSpaceSplit s).
Proof.
  rewrite quoteSpaceSplit_tokens. unfold Spec.tokens.
  apply Forall_map, Forall_forall. intros p Hp.
  apply list_elem_of_filter in Hp. destruct Hp as [Hp _].
  destruct p as [|c p]; [now simpl in Hp|]. simpl. discriminate.
Qed.

Lemma quoteSpaceSplit_cons (a rest : string) :
  isToken a -> quotesClosed a ->
  RpmOstree.quoteSpaceSplit (a +:+ " " +:+ rest)
  = a :: RpmOstree.quoteSpaceSplit rest.
Proof.
  intros Ha Hq. destruct (isToken_no_separator a Ha) as [Hne Hsep].
  unfold RpmOstree.quoteSpaceSplit, FieldsFunc.
  rewrite (fieldsFrom_no_separator a _ false "" Hsep).
  rewrite endState_count. unfold quotesClosed in Hq.
  rewrite <- Nat.negb_even, Hq. simpl.
  destruct a as [|c a]; [congruence|]. reflexivity.
Qed.

(** X2: single tokens that close their double quotes, joined with one space
    between them, are split back into the same tokens. *)
Theorem quoteSpaceSplit_Join (toks : list string) :
  Forall isToken toks -> Forall quotesClosed toks ->
  RpmOstree.quoteSpaceSplit (Join toks " ") = toks.
Proof.
  induction toks as [|a toks IH]; intros Htok Hq; [reflexivity|].
  apply Forall_cons_iff in Htok. destruct Htok as [Ha Htok].
  apply Forall_cons_iff in Hq. destruct Hq as [Hqa Hq].
  destruct toks as [|b toks]; [exact Ha|].
  change (Join (a :: b :: toks) " ") with (a +:+ " " +:+ Join (b :: toks) " ").
  rewrite (quoteSpaceSplit_cons a _ Ha Hqa). f_equal. now apply IH.
Qed.

Lemma quoteSpaceSplit_Join_witness :
  RpmOstree.quoteSpaceSplit (Join [Quoted.yippie; "baz"; "foo"] " ")
  = [Quoted.yippie; "baz"; "foo"].
Proof.
  apply quoteSpaceSplit_Join; repeat constructor.
Defined.

Lemma fieldsFrom_quoteFree (s : string) : forall cur : string,
  quoteFree s ->
  fieldsFrom RpmOstree.quoteSpaceSplit_f false cur s
  = nonEmpty (match Split s " "%char with
              | w :: ws => (cur +:+ w) :: ws
              | [] => [cur]
              end).
Proof.
  unfold quoteFree.
  induction s as [|c s IH]; intros cur Hq.
  - simpl. rewrite string_app_nil_r. now destruct cur.
  - cbn [list_ascii_of_string count_occ] in Hq.
    destruct (ascii_dec c Spec.dquote) as [|Hne]; [discriminate|].
    cbn [fieldsFrom Split].
    assert (Hf : RpmOstree.quoteSpaceSplit_f false c
                 = (Ascii.eqb c " "%char, false)).
    { unfold RpmOstree.quoteSpaceSplit_f.
      destruct (Ascii.eqb_spec c "034"%char) as [->|_];
        [now contradiction Hne|reflexivity]. }
    rewrite Hf. pose proof (Split_length s " "%char) as Hlen.
    destruct (Ascii.eqb c " "%char).
    + rewrite (IH "" Hq), string_app_nil_r.
      destruct (Split s " "%char) as [|w ws]; [simpl in Hlen; lia|].
      destruct cur; reflexivity.
    + rewrite (IH (cur +:+ String c "") Hq).
      destruct (Split s " "%char) as [|w ws]; [simpl in Hlen; lia|].
      now rewrite string_app_assoc.
Qed.

(** X3: on a string with no double quote, the tokens of [quoteSpaceSplit]
    are the pieces of [strings.Split] on a space that are not empty: there
    the client of rpm-ostree and the client of hosts that are not CoreOS
    split a kernel command line alike, up to empty strings. *)
Theorem quoteSpaceSplit_quoteFree (s : string) :
  quoteFree s ->
  RpmOstree.quoteSpaceSplit s = nonEmpty (Split s " "%char).
Proof.
  intros Hq. unfold RpmOstree.quoteSpaceSplit, FieldsFunc.
  rewrite (fieldsFrom_quoteFree s "" Hq).
  pose proof (Split_length s " "%char) as Hlen.
  destruct (Split s " "%char) as [|w ws]; [simpl in Hlen; lia|]. reflexivity.
Qed.

Lemma quoteSpaceSplit_quoteFree_witness :
  RpmOstree.quoteSpaceSplit " quiet  rw " = ["quiet"; "rw"].
Proof. exact (quoteSpaceSplit_quoteFree " quiet  rw " eq_refl). Defined.

(** *** Reading the booted deployment *)

Lemma bootedLoop_result (ds : list RpmOstreeDeployment)
    (res : option RpmOstreeDeployment) (err : option error) :
  RpmOstree.bootedLoop ds = (res, err) ->
  (exists d, res = Some d /\ err = None /\ Booted d = true /\ In d ds) \/
  (res = None /\
   err = Some (errorString "not currently booted in a deployment")).
Proof.
  induction ds as [|d ds IH]; simpl.
  - intros [= <- <-]. now right.
  - destruct (Booted d) eqn:Hd.
    + intros [= <- <-]. left. exists d. auto.
    + intros Hloop. destruct (IH Hloop) as [(d' & ? & ? & ? & ?)|?];
        [left; exists d'|right]; auto.
Qed.

Lemma GetBootedDeployment_cases (w : World) (r : RpmOstreeClient)
    (h h' : history) (res : option RpmOstreeDeployment) (err : option error) :
  RpmOstree.GetBootedDeployment w r h = (Val (res, err), h') ->
  exists out cmdErr,
    RpmOstree.RunRpmOstree r "status" ["--json"] h = (Val (out, cmdErr), h') /\
    ((exists d, res = Some d /\ err = None /\ cmdErr = None /\
                Booted d = true /\
                In d (Deployments (fst (unmarshalState w out)))) \/
     (res = None /\
      (err = cmdErr /\ cmdErr <> None \/
       cmdErr = None /\
       (exists e, snd (unmarshalState w out) = Some e /\
          err = Some (errorString
            ("failed to parse `rpm-ostree status --json` output: "
               +:+ Error e))) \/
       cmdErr = None /\
       err = Some (errorString "not currently booted in a deployment")))).
Proof.
  unfold RpmOstree.GetBootedDeployment, bind.
  destruct (RpmOstree.RunRpmOstree r "status" ["--json"] h)
    as [[[out [e|]]|msg] h1]; [| |discriminate].
  - intros [= <- <- <-]. exists out, (Some e). split; [reflexivity|].
    right. split; [reflexivity|]. left. split; [reflexivity|discriminate].
  - destruct (unmarshalState w out) as [rosState [e|]] eqn:Hparse.
    + intros [= <- <- <-]. exists out, None. split; [reflexivity|].
      right. split; [reflexivity|]. right. left. split; [reflexivity|].
      exists e. rewrite Hparse. split; reflexivity.
    + unfold ret. intros [= Hloop <-]. exists out, None.
      split; [reflexivity|]. rewrite Hparse. simpl.
      destruct (RpmOstree.bootedLoop (Deployments rosState))
        as [res' err'] eqn:Hl.
      injection Hloop as <- <-.
      destruct (bootedLoop_result _ _ _ Hl)
        as [(d & -> & -> & Hd & Hin)|[-> ->]].
      * left. exists d. auto.
      * right. split; [reflexivity|]. right. right. auto.
Qed.

(** X4: whenever [GetBootedDeployment] returns, it returns either a
    deployment and no error, or no deployment and an error.  The deployment
    is one of those the status output parses into and has [Booted] set; the
    error is the commander's error as it is, or the parse error behind a
    fixed text, or [not currently booted in a deployment]. *)
Theorem GetBootedDeployment_result (w : World) (r : RpmOstreeClient)
    (h h' : history) (res : option RpmOstreeDeployment) (err : option error) :
  RpmOstree.GetBootedDeployment w r h = (Val (res, err), h') ->
  exists out cmdErr,
    RpmOstree.RunRpmOstree r "status" ["--json"] h = (Val (out, cmdErr), h') /\
    ((exists d, res = Some d /\ err = None /\ cmdErr = None /\
                Booted d = true /\
                In d (Deployments (fst (unmarshalState w out)))) \/
     (res = None /\
      (err = cmdErr /\ cmdErr <> None \/
       cmdErr = None /\
       (exists e, snd (unmarshalState w out) = Some e /\
          err = Some (errorString
            ("failed to parse `rpm-ostree status --json` output: "
               +:+ Error e))) \/
       cmdErr = None /\
       err = Some (errorString "not currently booted in a deployment")))).
Proof. apply GetBootedDeployment_cases. Qed.

Lemma GetBootedDeployment_result_witness :
  exists out cmdErr,
    RpmOstree.RunRpmOstree (mockClient (Example.reply "{}")) "status"
      ["--json"] [] = (Val (out, cmdErr), [ECommander "status" ["--json"]]) /\
    ((exists d, Some Example.bootedDeployment = Some d /\ @None error = None /\
                cmdErr = None /\ Booted d = true /\
                In d (Deployments
                        (fst (unmarshalState (Example.world ∅ "" "") out)))) \/
     (Some Example.bootedDeployment = None /\
      (None = cmdErr /\ cmdErr <> None \/
       cmdErr = None /\
       (exists e, snd (unmarshalState (Example.world ∅ "" "") out) = Some e /\
          None = Some (errorString
            ("failed to parse `rpm-ostree status --json` output: "
               +:+ Error e))) \/
       cmdErr = None /\
       None = Some (errorString "not currently booted in a deployment")))).
Proof.
  exact (GetBootedDeployment_result (Example.world ∅ "" "")
           (mockClient (Example.reply "{}")) []
           [ECommander "status" ["--json"]]
           (Some Example.bootedDeployment) None eq_refl).
Defined.

Lemma HasPrefix_split (p : string) : forall s,
  HasPrefix s p = true -> s = p +:+ sliceFrom (String.length p) s.
Proof.
  unfold HasPrefix. induction p as [|c p IH]; intros s Hs; [reflexivity|].
  destruct s as [|c' s]; [discriminate Hs|]. simpl in *.
  destruct (ascii_dec c c') as [->|]; [|discriminate Hs].
  now rewrite <- (IH s Hs).
Qed.

(** X5: when [GetBootedOSImageURL] returns without an error, the version is
    that of the booted deployment, and the URL is either empty or the rest of
    the first custom-origin entry after [pivot://]: a URL that is not empty
    is never made up. *)
Theorem GetBootedOSImageURL_sound (w : World) (r : RpmOstreeClient)
    (h h' : history) (url version : string) :
  RpmOstree.GetBootedOSImageURL w r h = (Val (url, version, None), h') ->
  exists d,
    RpmOstree.GetBootedDeployment w r h = (Val (Some d, None), h') /\
    version = Version d /\
    (url = "" \/
     exists rest, CustomOrigin d = ("pivot://" +:+ url) :: rest).
Proof.
  unfold RpmOstree.GetBootedOSImageURL, bind.
  destruct (RpmOstree.GetBootedDeployment w r h)
    as [[[[d|] [e|]]|msg] h1]; try discriminate.
  unfold ret. intros [= Hurl <- <-]. exists d.
  split; [reflexivity|split; [reflexivity|]].
  unfold RpmOstree.pivotOf in Hurl.
  destruct (CustomOrigin d) as [|first rest]; [now left|].
  destruct (HasPrefix first "pivot://") eqn:Hpre; [|now left].
  right. exists rest. rewrite <- Hurl. f_equal.
  exact (HasPrefix_split "pivot://" first Hpre).
Qed.

Lemma GetBootedOSImageURL_sound_witness :
  exists d,
    RpmOstree.GetBootedDeployment (Example.world ∅ "" "")
      (mockClient (Example.reply "{}")) []
    = (Val (Some d, None), [ECommander "status" ["--json"]]) /\
    "42.80" = Version d /\
    ("quay.io/os@sha256:1" = "" \/
     exists rest,
       CustomOrigin d = ("pivot://" +:+ "quay.io/os@sha256:1") :: rest).
Proof.
  exact (GetBootedOSImageURL_sound (Example.world ∅ "" "")
           (mockClient (Example.reply "{}")) []
           [ECommander "status" ["--json"]] "quay.io/os@sha256:1" "42.80"
           eq_refl).
Defined.

(** X6: when the status command returns, [GetBootedOSImageURL] returns as
    well: the deployment it dereferences is never nil. *)
Theorem GetBootedOSImageURL_returns (w : World) (r : RpmOstreeClient)
    (h h' : history) (out : string) (cmdErr : option error) :
  RpmOstree.RunRpmOstree r "status" ["--json"] h
    = (Val (out, cmdErr), h') ->
  exists res, RpmOstree.GetBootedOSImageURL w r h = (Val res, h').
Proof.
  intros Hrun.
  destruct (RpmOstree.GetBootedDeployment w r h) as [[[res err]|msg] h1]
    eqn:Hget.
  - destruct (GetBootedDeployment_cases w r h h1 res err Hget)
      as (out' & cmdErr' & Hrun' & Hcases).
    rewrite Hrun in Hrun'. injection Hrun' as <- <- <-.
    unfold RpmOstree.GetBootedOSImageURL, bind. rewrite Hget.
    destruct Hcases as [(d & -> & -> & _)|[-> Herr]].
    + eexists. reflexivity.
    + destruct err as [e|]; [eexists; reflexivity|].
      destruct Herr as [[<- Hne]|[[_ (e & _ & He)]|[_ He]]];
        [congruence|discriminate He|discriminate He].
  - unfold RpmOstree.GetBootedDeployment, bind in Hget.
    rewrite Hrun in Hget.
    destruct cmdErr; [discriminate|].
    destruct (unmarshalState w out) as [rosState [e|]]; discriminate.
Qed.

Lemma GetBootedOSImageURL_returns_witness :
  exists res,
    RpmOstree.GetBootedOSImageURL (Example.world ∅ "" "")
      (mockClient (Example.reply "{}")) []
    = (Val res, [ECommander "status" ["--json"]]).
Proof.
  exact (GetBootedOSImageURL_returns (Example.world ∅ "" "")
           (mockClient (Example.reply "{}")) []
           [ECommander "status" ["--json"]] "{}" None eq_refl).
Defined.

(** *** The resolution of the commit in Rebase *)

Lemma Rebase_pivot_labelled (w : World)
    (imgURL osImageContentDir csum : string) (h : history) :
  String.eqb csum "" = false ->
  RpmOstree.Rebase_pivot w imgURL osImageContentDir csum h
  = (Val (true, Some malformed), h ++ [rmi imgURL]).
Proof.
  intros Hcsum. unfold RpmOstree.Rebase_pivot, RpmOstree.Rebase_pivot_with, defer, bind.
  rewrite Hcsum. reflexivity.
Qed.

(** X7: when the inspection of the image succeeds and supplies the commit
    label, neither the pull of the image nor the listing of the repository
    takes place: after the booted deployment is read, [Rebase] inspects the
    image, refuses the rebase command and removes the image, nothing else. *)
Theorem Rebase_label_skips_fallbacks (w : World) (r : RpmOstreeClient)
    (imgURL osImageContentDir : string) (h h1 : history)
    (d : RpmOstreeDeployment) (labels : gmap string string) :
  RpmOstree.GetBootedDeployment w r h = (Val (Some d, None), h1) ->
  imageInspect w h1 imgURL = (Some labels, None) ->
  String.eqb (mapIndex labels "com.coreos.ostree-commit") "" = false ->
  RpmOstree.Rebase w r imgURL osImageContentDir h
  = (Val (true, Some malformed), h1 ++ [EImageInspect imgURL; rmi imgURL]).
Proof.
  intros Hget Hinspect Hlabel.
  unfold RpmOstree.Rebase, RpmOstree.Rebase_with, bind, perform. rewrite Hget, Hinspect.
  change (RpmOstree.Rebase_pivot_with w (RpmOstree.runRpmOstree w))
    with (RpmOstree.Rebase_pivot w).
  rewrite (Rebase_pivot_labelled w imgURL osImageContentDir _ _ Hlabel).
  now rewrite <- app_assoc.
Qed.

Lemma Rebase_label_skips_fallbacks_witness :
  RpmOstree.Rebase Hosts.labelled (mockClient (Example.reply "{}"))
    Hosts.imgURL Hosts.osImageContentDir []
  = (Val (true, Some malformed),
     [ECommander "status" ["--json"]; EImageInspect Hosts.imgURL;
      rmi Hosts.imgURL]).
Proof.
  exact (Rebase_label_skips_fallbacks Hosts.labelled
           (mockClient (Example.reply "{}")) Hosts.imgURL
           Hosts.osImageContentDir [] [ECommander "status" ["--json"]]
           Example.bootedDeployment
           {[ "com.coreos.ostree-commit" := "c0ffee" ]}
           eq_refl eq_refl eq_refl).
Defined.

Lemma podmanInspect_pull_failure (w : World) (imgURL : string) (h : history)
    (out : string) (e : error) :
  let authFile := match stat w h kubeletAuthFile with
                  | None => true
                  | Some _ => false
                  end in
  runExt w (h ++ [EStat kubeletAuthFile]) numRetriesNetCommands "podman"
    (pullArgs authFile imgURL) = (out, Some e) ->
  RpmOstree.podmanInspect w imgURL h
  = (Val (None, Some e),
     h ++ [EStat kubeletAuthFile;
           ERunExt numRetriesNetCommands "podman" (pullArgs authFile imgURL)]).
Proof.
  intros authFile Hpull. unfold RpmOstree.podmanInspect, bind, perform.
  subst authFile. unfold pullArgs in *.
  destruct (stat w h kubeletAuthFile); simpl in *; rewrite Hpull;
    unfold ret; now rewrite <- app_assoc.
Qed.

(** X8: when the inspection of the image fails and the pull that
    [podmanInspect] then tries fails (after its five attempts), [Rebase]
    returns the error of the pull as it is, with [changed] false.  The pull
    carries the pull secret exactly when the stat of the kubelet's file
    succeeds; [podman inspect] is not run, and neither is the removal of
    the image, which is deferred only after the inspection. *)
Theorem Rebase_pull_failure (w : World) (r : RpmOstreeClient)
    (imgURL osImageContentDir : string) (h h1 : history)
    (d : RpmOstreeDeployment) (info : option (gmap string string))
    (inspectErr e : error) (out : string) :
  let h2 := h1 ++ [EImageInspect imgURL] in
  let authFile := match stat w h2 kubeletAuthFile with
                  | None => true
                  | Some _ => false
                  end in
  RpmOstree.GetBootedDeployment w r h = (Val (Some d, None), h1) ->
  imageInspect w h1 imgURL = (info, Some inspectErr) ->
  runExt w (h2 ++ [EStat kubeletAuthFile]) 5 "podman"
    (pullArgs authFile imgURL) = (out, Some e) ->
  RpmOstree.Rebase w r imgURL osImageContentDir h
  = (Val (false, Some e),
     h2 ++ [EStat kubeletAuthFile;
            ERunExt 5 "podman" (pullArgs authFile imgURL)]).
Proof.
  intros h2 authFile Hget Hinspect Hpull.
  unfold RpmOstree.Rebase, RpmOstree.Rebase_with, bind, perform. rewrite Hget, Hinspect.
  fold h2.
  now rewrite (podmanInspect_pull_failure w imgURL h2 out e Hpull).
Qed.

Lemma Rebase_pull_failure_witness :
  RpmOstree.Rebase (Fallback.world (Some Fallback.pullFailed) [])
    (mockClient (Example.reply "{}")) Hosts.imgURL Hosts.osImageContentDir []
  = (Val (false, Some Fallback.pullFailed),
     [ECommander "status" ["--json"]; EImageInspect Hosts.imgURL;
      EStat kubeletAuthFile;
      ERunExt 5 "podman"
        ["pull"; "-q"; "--authfile"; kubeletAuthFile; Hosts.imgURL]]).
Proof.
  exact (Rebase_pull_failure (Fallback.world (Some Fallback.pullFailed) [])
           (mockClient (Example.reply "{}")) Hosts.imgURL
           Hosts.osImageContentDir [] [ECommander "status" ["--json"]]
           Example.bootedDeployment None Fallback.unauthorized
           Fallback.pullFailed "" eq_refl eq_refl eq_refl).
Defined.

(** What [podmanInspect] does once the pull succeeded: [podman inspect] is
    run and its output parsed. *)
Lemma podmanInspect_pulled (w : World) (imgURL : string) (h : history)
    (out : string) :
  let authFile := match stat w h kubeletAuthFile with
                  | None => true
                  | Some _ => false
                  end in
  let h1 := h ++ [EStat kubeletAuthFile;
                  ERunExt 5 "podman" (pullArgs authFile imgURL)] in
  runExt w (h ++ [EStat kubeletAuthFile]) 5 "podman"
    (pullArgs authFile imgURL) = (out, None) ->
  RpmOstree.podmanInspect w imgURL h
  = (match combinedOutput w h1 "podman" ["inspect"; "--type=image"; imgURL]
     with
     | (rawOut, Some e) =>
         Val (None,
              Some (Wrapf e ("error running podman " +:+
                               Join ["inspect"; "--type=image"; imgURL] " "
                               +:+ ": " +:+ rawOut)))
     | (rawOut, None) =>
         match unmarshalInspections w rawOut with
         | (_, Some e) => Val (None, Some (Wrapf e "unmarshaling podman inspect"))
         | (first :: _, None) => Val (Some first, None)
         | ([], None) => Panic "index out of range"
         end
     end,
     h1 ++ [EExec "podman" ["inspect"; "--type=image"; imgURL]]).
Proof.
  intros authFile h1 Hpull.
  unfold RpmOstree.podmanInspect, bind, perform, numRetriesNetCommands.
  subst h1 authFile. unfold pullArgs in *.
  destruct (stat w h kubeletAuthFile); simpl in *; rewrite Hpull;
    rewrite runGetOut_run; rewrite <- !app_assoc; simpl;
    destruct (combinedOutput w _ "podman" _) as [rawOut [e1|]];
    try reflexivity;
    destruct (unmarshalInspections w rawOut) as [[|first rest] [e2|]];
    reflexivity.
Qed.

(** X9: when the inspection of the image fails and the pull succeeds,
    [Rebase] takes the commit label of the first image that
    [podman inspect] lists: with that label set it goes on to the rebase
    command without listing the repository, and removes the image.  When
    [podman inspect] lists no image at all, [Rebase] panics on the index 0,
    and the image is not removed. *)
Theorem Rebase_podman_fallback (w : World) (r : RpmOstreeClient)
    (imgURL osImageContentDir : string) (h h1 : history)
    (d : RpmOstreeDeployment) (info : option (gmap string string))
    (inspectErr : error) (out rawOut : string)
    (images : list imageInspection) :
  let h2 := h1 ++ [EImageInspect imgURL] in
  let authFile := match stat w h2 kubeletAuthFile with
                  | None => true
                  | Some _ => false
                  end in
  let h3 := h2 ++ [EStat kubeletAuthFile;
                   ERunExt 5 "podman" (pullArgs authFile imgURL)] in
  let h4 := h3 ++ [EExec "podman" ["inspect"; "--type=image"; imgURL]] in
  RpmOstree.GetBootedDeployment w r h = (Val (Some d, None), h1) ->
  imageInspect w h1 imgURL = (info, Some inspectErr) ->
  runExt w (h2 ++ [EStat kubeletAuthFile]) 5 "podman"
    (pullArgs authFile imgURL) = (out, None) ->
  combinedOutput w h3 "podman" ["inspect"; "--type=image"; imgURL]
    = (rawOut, None) ->
  unmarshalInspections w rawOut = (images, None) ->
  match images with
  | first :: _ =>
      String.eqb (mapIndex (Inspection.Labels first)
                    "com.coreos.ostree-commit") "" = false ->
      RpmOstree.Rebase w r imgURL osImageContentDir h
      = (Val (true, Some malformed), h4 ++ [rmi imgURL])
  | [] =>
      RpmOstree.Rebase w r imgURL osImageContentDir h
      = (Panic "index out of range", h4)
  end.
Proof.
  intros h2 authFile h3 h4 Hget Hinspect Hpull Hrun Hparse.
  pose proof (podmanInspect_pulled w imgURL h2 out Hpull) as Hpodman.
  cbv zeta in Hpodman. fold authFile h3 in Hpodman.
  rewrite Hrun, Hparse in Hpodman. fold h4 in Hpodman.
  unfold RpmOstree.Rebase, RpmOstree.Rebase_with, bind, perform. rewrite Hget, Hinspect.
  fold h2. rewrite Hpodman.
  destruct images as [|first rest]; [reflexivity|].
  intros Hlabel. apply Rebase_pivot_labelled. exact Hlabel.
Qed.

Lemma Rebase_podman_fallback_witness :
  RpmOstree.Rebase (Fallback.world None [Fallback.inspected])
    (mockClient (Example.reply "{}")) Hosts.imgURL Hosts.osImageContentDir []
  = (Val (true, Some malformed),
     [ECommander "status" ["--json"]; EImageInspect Hosts.imgURL;
      EStat kubeletAuthFile;
      ERunExt 5 "podman"
        ["pull"; "-q"; "--authfile"; kubeletAuthFile; Hosts.imgURL];
      EExec "podman" ["inspect"; "--type=image"; Hosts.imgURL];
      rmi Hosts.imgURL]) /\
  RpmOstree.Rebase (Fallback.world None [])
    (mockClient (Example.reply "{}")) Hosts.imgURL Hosts.osImageContentDir []
  = (Panic "index out of range",
     [ECommander "status" ["--json"]; EImageInspect Hosts.imgURL;
      EStat kubeletAuthFile;
      ERunExt 5 "podman"
        ["pull"; "-q"; "--authfile"; kubeletAuthFile; Hosts.imgURL];
      EExec "podman" ["inspect"; "--type=image"; Hosts.imgURL]]).
Proof.
  split.
  - exact (Rebase_podman_fallback (Fallback.world None [Fallback.inspected])
             (mockClient (Example.reply "{}")) Hosts.imgURL
             Hosts.osImageContentDir [] [ECommander "status" ["--json"]]
             Example.bootedDeployment None Fallback.unauthorized "" "[]"
             [Fallback.inspected] eq_refl eq_refl eq_refl eq_refl eq_refl
             eq_refl).
  - exact (Rebase_podman_fallback (Fallback.world None [])
             (mockClient (Example.reply "{}")) Hosts.imgURL
             Hosts.osImageContentDir [] [ECommander "status" ["--json"]]
             Example.bootedDeployment None Fallback.unauthorized "" "[]"
             [] eq_refl eq_refl eq_refl eq_refl eq_refl).
Defined.

Lemma Rebase_refs_events (w : World) (repo : string) (h : history) :
  exists evs, snd (RpmOstree.Rebase_refs w repo h) = h ++ evs /\
              Forall isOstree evs.
Proof.
  unfold RpmOstree.Rebase_refs, bind. rewrite runGetOut_run.
  assert (Hrefs : isOstree (EExec "ostree" ["refs"; "--repo"; repo]))
    by now eexists.
  destruct (combinedOutput w h "ostree" ["refs"; "--repo"; repo])
    as [refText [e|]].
  - eexists. split; [reflexivity|]. now constructor.
  - destruct (length (Split (TrimSpace refText) "010"%char) =? 1).
    + rewrite runGetOut_run.
      destruct (combinedOutput w _ "ostree" _) as [rawOut [e|]];
        (exists [EExec "ostree" ["refs"; "--repo"; repo];
                 EExec "ostree"
                   ["rev-parse"; "--repo"; repo;
                    nth 0 (Split (TrimSpace refText) "010"%char) ""]];
         split; [simpl; now rewrite <- app_assoc|];
         repeat constructor; [exact Hrefs|now eexists]).
    + destruct (1 <? length (Split (TrimSpace refText) "010"%char));
        (eexists; split; [reflexivity|now constructor]).
Qed.

(** X10: once [Rebase] has read the labels of the image, whatever happens
    next (commit found or not, rebase refused), the removal of the image runs
    exactly once, as the last thing the function does; before it only
    [ostree] may have run: rpm-ostree is never started for the rebase. *)
Theorem Rebase_pivot_cleanup (w : World)
    (imgURL osImageContentDir csum : string) (h : history) :
  exists evs,
    snd (RpmOstree.Rebase_pivot w imgURL osImageContentDir csum h)
    = h ++ evs ++ [rmi imgURL] /\
    Forall isOstree evs.
Proof.
  unfold RpmOstree.Rebase_pivot, RpmOstree.Rebase_pivot_with, defer, bind.
  destruct (String.eqb csum "").
  - destruct (Rebase_refs_events w (osImageContentDir +:+ "/srv/repo") h)
      as (evs & Hevs & Hostree).
    exists evs. split; [|exact Hostree].
    destruct (RpmOstree.Rebase_refs w _ h) as [[[csum' [e|]]|msg] h1];
      simpl in *; subst h1; now rewrite <- app_assoc.
  - exists []. split; [reflexivity|constructor].
Qed.

(** X11: [Rebase] never returns without an error.  When it reports a change,
    the error is the one with which [runRpmOstree] refuses the rebase
    command; on every other return [changed] is false. *)
Theorem Rebase_never_succeeds (w : World) (r : RpmOstreeClient)
    (imgURL osImageContentDir : string) (h h' : history)
    (changed : bool) (err : option error) :
  RpmOstree.Rebase w r imgURL osImageContentDir h
    = (Val (changed, err), h') ->
  (changed = true /\ err = Some malformed) \/
  (changed = false /\ exists e, err = Some e).
Proof. apply Rebase_result. Qed.

Lemma Rebase_never_succeeds_witness :
  (true = true /\ Some malformed = Some malformed) \/
  (true = false /\ exists e, Some malformed = Some e).
Proof.
  exact (Rebase_never_succeeds Hosts.labelled
           (mockClient (Example.reply "{}")) Hosts.imgURL
           Hosts.osImageContentDir []
           [ECommander "status" ["--json"]; EImageInspect Hosts.imgURL;
            rmi Hosts.imgURL] true (Some malformed) eq_refl).
Defined.

(** X12: the fallback on the local repository, by the lines of the listing.
    A listing that fails is the failure of the block, and nothing else is
    run.  A listing of two lines or more gives the error
    [multiple refs found in repo] without running [rev-parse].  A listing of
    one line gives what [rev-parse] of that line gives: its output trimmed
    is the commit, its failure the failure of the block. *)
Theorem Rebase_refs_by_lines (w : World) (repo : string) (h : history) :
  let h1 := h ++ [EExec "ostree" (refsArgs repo)] in
  (forall refText e,
     combinedOutput w h "ostree" (refsArgs repo) = (refText, Some e) ->
     exists wrapped,
       RpmOstree.Rebase_refs w repo h = (Val ("", Some wrapped), h1) /\
       wrapped = Wrapf e ("error running ostree " +:+
                            Join (refsArgs repo) " " +:+ ": " +:+ refText)) /\
  (forall refText,
     combinedOutput w h "ostree" (refsArgs repo) = (refText, None) ->
     1 < length (Split (TrimSpace refText) "010"%char) ->
     RpmOstree.Rebase_refs w repo h
     = (Val ("", Some (errorString "multiple refs found in repo")), h1)) /\
  (forall refText ref,
     combinedOutput w h "ostree" (refsArgs repo) = (refText, None) ->
     Split (TrimSpace refText) "010"%char = [ref] ->
     RpmOstree.Rebase_refs w repo h
     = (Val (resolved w repo ref h1),
        h1 ++ [EExec "ostree" (revParseArgs repo ref)])).
Proof.
  intros h1. split; [|split].
  - intros refText e Hrefs. eexists. split; [|reflexivity].
    unfold RpmOstree.Rebase_refs, bind. rewrite runGetOut_run.
    fold (refsArgs repo). rewrite Hrefs. reflexivity.
  - intros refText Hrefs Hlen.
    exact (Rebase_refs_multiple w repo refText h Hrefs Hlen).
  - intros refText ref Hrefs Hsplit.
    rewrite (Rebase_refs_single w repo refText ref h Hrefs Hsplit).
    subst h1. now rewrite <- app_assoc.
Qed.

Lemma Rebase_refs_by_lines_witness :
  RpmOstree.Rebase_refs
    (Example.world ∅ ("rhcos/stable" +:+ newline +:+ "rhcos/next") "")
    Hosts.repo []
  = (Val ("", Some (errorString "multiple refs found in repo")),
     [EExec "ostree" ["refs"; "--repo"; Hosts.repo]]) /\
  RpmOstree.Rebase_refs
    (Example.world ∅ ("rhcos/stable" +:+ newline) ("c0ffee" +:+ newline))
    Hosts.repo []
  = (Val ("c0ffee", None),
     [EExec "ostree" ["refs"; "--repo"; Hosts.repo];
      EExec "ostree" ["rev-parse"; "--repo"; Hosts.repo; "rhcos/stable"]]).
Proof.
  split.
  - refine (proj1 (proj2 (Rebase_refs_by_lines
                            (Example.world ∅ ("rhcos/stable" +:+ newline
                                                +:+ "rhcos/next") "")
                            Hosts.repo []))
              ("rhcos/stable" +:+ newline +:+ "rhcos/next") eq_refl _).
    vm_compute. lia.
  - exact (proj2 (proj2 (Rebase_refs_by_lines
                           (Example.world ∅ ("rhcos/stable" +:+ newline)
                              ("c0ffee" +:+ newline))
                           Hosts.repo []))
             ("rhcos/stable" +:+ newline) "rhcos/stable" eq_refl eq_refl).
Defined.

(** *** The flags of SetKernelArgs *)

Section StableHost.
Context (reply : history -> string -> list string -> string * option error)
        (out : string)
        (Hstable : forall h, reply h "kargs" [] = (out, None)).

Lemma isKernelArgInUse_stable (sv : string) (h : history) :
  RpmOstree.isKernelArgInUse (mockClient reply) sv h
  = (Val (existsb (fun v => HasPrefix v sv) (RpmOstree.quoteSpaceSplit out),
          None),
     h ++ [kargsQuery]).
Proof.
  unfold RpmOstree.isKernelArgInUse, RpmOstree.GetKernelArgs,
    RpmOstree.RunRpmOstree, bind, perform.
  simpl. unfold mockCommander, perform. now rewrite Hstable.
Qed.

Lemma kargsOfTokens_stable (operation : Z) (svs : list string) :
  forall (kargs : list string) (h : history),
  RpmOstree.kargsOfTokens (mockClient reply) operation svs kargs h
  = (Val (kargs ++ flat_map (flagsOfToken (RpmOstree.quoteSpaceSplit out)
                               operation) svs, None),
     h ++ repeat kargsQuery
            (if Z.eqb operation kargRemove then length svs else 0)).
Proof.
  induction svs as [|sv svs IH]; intros kargs h;
    cbn [RpmOstree.kargsOfTokens flat_map].
  - unfold ret. rewrite app_nil_r.
    destruct (Z.eqb operation kargRemove); simpl; now rewrite app_nil_r.
  - unfold flagsOfToken at 1.
    destruct (Z.eqb operation kargAdd) eqn:HA.
    + rewrite IH. rewrite <- app_assoc. simpl.
      destruct (Z.eqb_spec operation kargRemove) as [->|_];
        [discriminate HA|reflexivity].
    + destruct (Z.eqb operation kargRemove) eqn:HR.
      * unfold bind. rewrite isKernelArgInUse_stable.
        rewrite IH, ?HR. simpl. rewrite <- !app_assoc. simpl.
        destruct (existsb _ _); simpl; now rewrite <- ?app_assoc.
      * rewrite IH, ?HR. reflexivity.
Qed.

Lemma kargsOfArgs_stable (args : list KernelArgument) :
  forall (kargs : list string) (h : history),
  RpmOstree.kargsOfArgs (mockClient reply) args kargs h
  = (Val (kargs ++ queuedFlags (RpmOstree.quoteSpaceSplit out) args, None),
     h ++ repeat kargsQuery (length (removeTokens args))).
Proof.
  induction args as [|v args IH]; intros kargs h;
    cbn [RpmOstree.kargsOfArgs queuedFlags removeTokens flat_map].
  - unfold ret. now rewrite !app_nil_r.
  - unfold bind. rewrite kargsOfTokens_stable, IH.
    rewrite length_app, repeat_app, <- !app_assoc.
    now destruct (Z.eqb (Operation v) kargRemove).
Qed.

End StableHost.

(** X13: against a stand-in for rpm-ostree whose query always reports the
    kernel arguments [out], the flags that [SetKernelArgs] queues are
    [queuedFlags]: in the order of the requests and of their tokens, an
    append flag for every token of an Add, a delete flag for every token of
    a Remove that is a prefix of a reported argument, nothing for any other
    operation.  The host is asked once per token of a Remove; with no flag
    the result is the empty output, otherwise one more call carries the
    flags and its reply is the result. *)
Theorem SetKernelArgs_flags
    (reply : history -> string -> list string -> string * option error)
    (out : string) (args : list KernelArgument) (h : history) :
  (forall h', reply h' "kargs" [] = (out, None)) ->
  let flags := queuedFlags (RpmOstree.quoteSpaceSplit out) args in
  let h1 := h ++ repeat kargsQuery (length (removeTokens args)) in
  RpmOstree.kargsOfArgs (mockClient reply) args [] h = (Val (flags, None), h1)
  /\
  RpmOstree.SetKernelArgs (mockClient reply) args h
  = match flags with
    | [] => (Val ("", None), h1)
    | _ :: _ => (Val (reply h1 "kargs" flags),
                 h1 ++ [ECommander "kargs" flags])
    end.
Proof.
  intros Hstable flags h1.
  pose proof (kargsOfArgs_stable reply out Hstable args [] h) as Hq.
  simpl in Hq. fold flags h1 in Hq. split; [exact Hq|].
  unfold RpmOstree.SetKernelArgs, bind. rewrite Hq.
  destruct flags; reflexivity.
Qed.

Lemma SetKernelArgs_flags_witness :
  RpmOstree.SetKernelArgs (mockClient (Example.reply "quiet nosmt=force rw"))
    [{| Operation := kargRemove; Name := "nosmt debug" |};
     {| Operation := 7%Z; Name := "ignored" |};
     {| Operation := kargAdd; Name := Quoted.line |}] []
  = (Val ("quiet nosmt=force rw", None),
     [kargsQuery; kargsQuery;
      ECommander "kargs"
        ["--delete=nosmt"; "--append=" +:+ Quoted.yippie;
         "--append=baz"; "--append=foo"]]).
Proof.
  exact (proj2 (SetKernelArgs_flags (Example.reply "quiet nosmt=force rw")
                  "quiet nosmt=force rw"
                  [{| Operation := kargRemove; Name := "nosmt debug" |};
                   {| Operation := 7%Z; Name := "ignored" |};
                   {| Operation := kargAdd; Name := Quoted.line |}] []
                  (fun _ => eq_refl))).
Defined.

Lemma kargsOfTokens_no_removal (r : RpmOstreeClient) (operation : Z)
    (svs : list string) :
  forall (kargs : list string) (h : history),
  operation <> kargRemove ->
  RpmOstree.kargsOfTokens r operation svs kargs h
  = (Val (kargs ++ flat_map (flagsOfToken [] operation) svs, None), h).
Proof.
  intros kargs h Hop. apply Z.eqb_neq in Hop. revert kargs.
  induction svs as [|sv svs IH]; intros kargs;
    cbn [RpmOstree.kargsOfTokens flat_map].
  - unfold ret. now rewrite app_nil_r.
  - unfold flagsOfToken at 1. rewrite Hop.
    destruct (Z.eqb operation kargAdd); rewrite IH;
      [now rewrite <- app_assoc|reflexivity].
Qed.

(** X14: requests among which there is no Remove never touch the host while
    the flags are queued, whatever the commander: every token of an Add
    gives an append flag, in order, and a request whose operation is neither
    Add nor Remove is passed over in silence. *)
Theorem SetKernelArgs_without_removal (r : RpmOstreeClient)
    (args : list KernelArgument) (h : history) :
  Forall (fun v => Operation v <> kargRemove) args ->
  RpmOstree.kargsOfArgs r args [] h = (Val (queuedFlags [] args, None), h) /\
  (Forall (fun v => Operation v <> kargAdd) args ->
   RpmOstree.SetKernelArgs r args h = (Val ("", None), h)).
Proof.
  intros Hops.
  assert (Hq : forall kargs,
    RpmOstree.kargsOfArgs r args kargs h
    = (Val (kargs ++ queuedFlags [] args, None), h)).
  { induction Hops as [|v args Hv _ IH]; intros kargs;
      cbn [RpmOstree.kargsOfArgs queuedFlags flat_map].
    - unfold ret. now rewrite app_nil_r.
    - unfold bind. rewrite (kargsOfTokens_no_removal r _ _ kargs h Hv), IH.
      now rewrite <- app_assoc. }
  split; [exact (Hq [])|].
  intros Hadd. unfold RpmOstree.SetKernelArgs, bind. rewrite (Hq []).
  assert (Hnone : queuedFlags [] args = []).
  { clear Hq. induction args as [|v args IH]; [reflexivity|].
    apply Forall_cons_iff in Hops. destruct Hops as [Hr Hops].
    apply Forall_cons_iff in Hadd. destruct Hadd as [Ha Hadd].
    cbn [queuedFlags flat_map]. fold (queuedFlags [] args).
    rewrite (IH Hops Hadd), app_nil_r.
    apply Z.eqb_neq in Hr. apply Z.eqb_neq in Ha.
    induction (RpmOstree.quoteSpaceSplit (Name v)) as [|sv svs IHs];
      [reflexivity|].
    simpl. unfold flagsOfToken at 1. now rewrite Ha, Hr. }
  now rewrite Hnone.
Qed.

Lemma SetKernelArgs_without_removal_witness :
  RpmOstree.kargsOfArgs (RpmOstree.realClient Hosts.labelled)
    [{| Operation := kargAdd; Name := "nosmt quiet" |};
     {| Operation := 2%Z; Name := "rw" |}] [] []
  = (Val (["--append=nosmt"; "--append=quiet"], None), []).
Proof.
  refine (proj1 (SetKernelArgs_without_removal
                   (RpmOstree.realClient Hosts.labelled)
                   [{| Operation := kargAdd; Name := "nosmt quiet" |};
                    {| Operation := 2%Z; Name := "rw" |}] [] _)).
  repeat constructor; discriminate.
Defined.

Section FailingQuery.
Context (reply : history -> string -> list string -> string * option error)
        (e : error)
        (Hfail : forall h, snd (reply h "kargs" []) = Some e).

Lemma isKernelArgInUse_failing (sv : string) (h : history) :
  RpmOstree.isKernelArgInUse (mockClient reply) sv h
  = (Val (false, Some e), h ++ [kargsQuery]).
Proof.
  unfold RpmOstree.isKernelArgInUse, RpmOstree.GetKernelArgs,
    RpmOstree.RunRpmOstree, bind, perform.
  simpl. unfold mockCommander, perform.
  specialize (Hfail h). destruct (reply h "kargs" []) as [out err].
  simpl in Hfail. now subst err.
Qed.

Lemma kargsOfArgs_failing (args : list KernelArgument) :
  forall (kargs : list string) (h : history),
  removeTokens args <> [] ->
  exists kargs',
    RpmOstree.kargsOfArgs (mockClient reply) args kargs h
    = (Val (kargs', Some e), h ++ [kargsQuery]).
Proof.
  induction args as [|v args IH]; intros kargs h Hrm; [now contradiction Hrm|].
  cbn [RpmOstree.kargsOfArgs removeTokens flat_map] in *. unfold bind.
  destruct (Z.eqb_spec (Operation v) kargRemove) as [Hop|Hop].
  - destruct (RpmOstree.quoteSpaceSplit (Name v)) as [|sv svs].
    + simpl. unfold ret. apply IH. exact Hrm.
    + cbn [RpmOstree.kargsOfTokens]. rewrite Hop. simpl. unfold bind.
      rewrite isKernelArgInUse_failing. eexists. reflexivity.
  - rewrite (kargsOfTokens_no_removal (mockClient reply) _ _ kargs h Hop).
    apply IH. exact Hrm.
Qed.

End FailingQuery.

(** X15: when the query of the kernel arguments fails, the first token of a
    Remove ends [SetKernelArgs]: the result is the empty output and the
    error of the query, the host was asked once, the flags queued so far are
    dropped and no command carries any flag. *)
Theorem SetKernelArgs_query_failure
    (reply : history -> string -> list string -> string * option error)
    (e : error) (args : list KernelArgument) (h : history) :
  (forall h', snd (reply h' "kargs" []) = Some e) ->
  removeTokens args <> [] ->
  RpmOstree.SetKernelArgs (mockClient reply) args h
  = (Val ("", Some e), h ++ [kargsQuery]).
Proof.
  intros Hfail Hrm.
  destruct (kargsOfArgs_failing reply e Hfail args [] h Hrm) as [kargs' Hq].
  unfold RpmOstree.SetKernelArgs, bind. now rewrite Hq.
Qed.

Lemma SetKernelArgs_query_failure_witness :
  RpmOstree.SetKernelArgs
    (mockClient (fun _ _ _ => ("", Some Fallback.unauthorized)))
    [{| Operation := kargAdd; Name := "nosmt" |};
     {| Operation := kargRemove; Name := "quiet rw" |}] []
  = (Val ("", Some Fallback.unauthorized), [kargsQuery]).
Proof.
  refine (SetKernelArgs_query_failure
            (fun _ _ _ => ("", Some Fallback.unauthorized))
            Fallback.unauthorized
            [{| Operation := kargAdd; Name := "nosmt" |};
             {| Operation := kargRemove; Name := "quiet rw" |}] []
            (fun _ => eq_refl) _).
  discriminate.
Defined.

(** *** The client that is not mocked *)

(** X16: the noun never reaches the command line.  With at most two
    arguments, [runRpmOstree] runs [/usr/bin/rpm-ostree] with the arguments
    alone, so that its result does not depend on the noun; hence, for the
    client that [NewNodeUpdaterClient] builds, [GetStatus] and
    [GetKernelArgs] run the same command, and the kernel arguments are the
    tokens of whatever text that command prints. *)
Theorem runRpmOstree_drops_noun (w : World) :
  (forall noun noun' args h,
     RpmOstree.runRpmOstree w noun args h
     = RpmOstree.runRpmOstree w noun' args h) /\
  (forall noun args h,
     length args <= 2 ->
     snd (RpmOstree.runRpmOstree w noun args h)
     = h ++ [EExec realRpmOstreeCmd args]) /\
  (forall h,
     snd (RpmOstree.GetStatus (RpmOstree.realClient w) h)
     = h ++ [EExec realRpmOstreeCmd []] /\
     snd (RpmOstree.GetKernelArgs (RpmOstree.realClient w) h)
     = h ++ [EExec realRpmOstreeCmd []] /\
     forall text,
       fst (RpmOstree.GetStatus (RpmOstree.realClient w) h)
       = Val (text, None) ->
       fst (RpmOstree.GetKernelArgs (RpmOstree.realClient w) h)
       = Val (RpmOstree.quoteSpaceSplit text, None)).
Proof.
  split; [reflexivity|split].
  - intros noun args h Hlen. unfold RpmOstree.runRpmOstree.
    destruct (Nat.ltb_spec 2 (length args)); [lia|].
    now rewrite runGetOut_run.
  - intros h.
    unfold RpmOstree.GetStatus, RpmOstree.GetKernelArgs,
      RpmOstree.RunRpmOstree, bind.
    simpl. unfold RpmOstree.runRpmOstree. simpl. rewrite runGetOut_run.
    destruct (combinedOutput w h realRpmOstreeCmd []) as [rawOut [e|]];
      simpl; repeat split; try reflexivity; intros text [= <-];
      reflexivity.
Qed.

(** *** The kernel arguments of a host that is not CoreOS *)

Lemma Join_Split (s : string) (sep : ascii) :
  Join (Split s sep) (String sep "") = s.
Proof.
  induction s as [|c s IH]; [reflexivity|].
  pose proof (Split_length s sep) as Hlen. cbn [Split].
  destruct (Ascii.eqb_spec c sep) as [->|Hne].
  - destruct (Split s sep) as [|w ws]; [simpl in Hlen; lia|].
    change (Join ("" :: w :: ws) (String sep ""))
      with ("" +:+ String sep "" +:+ Join (w :: ws) (String sep "")).
    now rewrite IH.
  - destruct (Split s sep) as [|w [|w' ws]]; [simpl in Hlen; lia| |].
    + simpl in *. now rewrite IH.
    + change (Join (String c w :: w' :: ws) (String sep ""))
        with (String c (w +:+ String sep "" +:+
                          Join (w' :: ws) (String sep ""))).
      now rewrite <- IH.
Qed.

(** X17: on a host that is not CoreOS, [GetKernelArgs] reads the command
    line file once and runs nothing.  A failure of the read is returned as it
    is with no arguments; otherwise there is at least one argument (the empty
    string for an empty file) and the arguments joined with single spaces
    give back the content of the file, byte for byte. *)
Theorem stub_GetKernelArgs_roundtrip (w : World) (CmdLineFile : string)
    (noCos : NotCoreOS.notCoreOSClient) (h : history) :
  snd (NotCoreOS.GetKernelArgs w CmdLineFile noCos h)
  = h ++ [EReadFile CmdLineFile] /\
  (forall content e,
     readFile w h CmdLineFile = (content, Some e) ->
     fst (NotCoreOS.GetKernelArgs w CmdLineFile noCos h) = Val ([], Some e)) /\
  (forall content,
     readFile w h CmdLineFile = (content, None) ->
     exists kargs,
       fst (NotCoreOS.GetKernelArgs w CmdLineFile noCos h)
       = Val (kargs, None) /\
       kargs <> [] /\ Join kargs " " = content).
Proof.
  unfold NotCoreOS.GetKernelArgs, bind, perform.
  destruct (readFile w h CmdLineFile) as [content [e|]]; simpl.
  - split; [reflexivity|]. split.
    + now intros ? ? [= <- <-].
    + intros ? [=].
  - split; [reflexivity|]. split.
    + intros ? ? [=].
    + intros ? [= <-]. exists (Split content " "%char).
      split; [reflexivity|]. split.
      * pose proof (Split_length content " "%char) as Hlen.
        intros Hnil. rewrite Hnil in Hlen. simpl in Hlen. lia.
      * exact (Join_Split content " "%char).
Qed.

(** *** The validity of a pool's configuration *)

Import Operator OperatorSpec.

Lemma checkConfigs_valid (key generated version : string)
    (machineConfigGetter : string -> option MachineConfig * option error)
    (mcs : list string) :
  checkConfigs key generated version machineConfigGetter mcs = Val None <->
  Forall (acceptable key generated version machineConfigGetter) mcs.
Proof.
  induction mcs as [|mcName mcs IH]; cbn [checkConfigs].
  - split; [constructor|reflexivity].
  - rewrite Forall_cons_iff, <- IH. unfold acceptable at 1.
    destruct (machineConfigGetter mcName) as [[mc|] [e|]].
    + split; [discriminate|]. intros [(mc' & [=] & _) _].
    + destruct (Annotations mc !! key) as [v|] eqn:Hann.
      * destruct (String.eqb_spec v version) as [->|Hv]; simpl.
        -- split; [|now intros [_ ?]]. intros Hrest. split; [|exact Hrest].
           exists mc. split; [reflexivity|]. rewrite Hann. now left.
        -- split; [discriminate|].
           intros [(mc' & [= <-] & [Heq|[Heq _]]) _]; rewrite Hann in Heq;
             congruence.
      * destruct (String.eqb_spec generated mcName) as [->|Hg].
        -- split; [discriminate|].
           intros [(mc' & [= <-] & [Heq|[_ Hne]]) _];
             [rewrite Hann in Heq; discriminate|congruence].
        -- split; [|now intros [_ ?]]. intros Hrest. split; [|exact Hrest].
           exists mc. split; [reflexivity|]. rewrite Hann. right.
           split; [reflexivity|congruence].
    + split; [discriminate|]. intros [(mc' & [=] & _) _].
    + split; [discriminate|]. intros [(mc' & [=] & _) _].
Qed.

(** X18: [isMachineConfigPoolConfigurationValid] returns no error exactly
    when the pool names a generated config and lists at least one source,
    and the getter finds the generated config and every source, the
    generated config carrying the annotation of the controller version with
    the expected version, and every source either carrying it with that
    version or not carrying it at all. *)
Theorem isMachineConfigPoolConfigurationValid_spec {Condition : Type}
    (key version : string) (pool : MachineConfigPool Condition)
    (machineConfigGetter : string -> option MachineConfig * option error) :
  isMachineConfigPoolConfigurationValid key pool version machineConfigGetter
    = Val None <->
  ConfigurationName pool <> "" /\ ConfigurationSource pool <> [] /\
  Forall (acceptable key (ConfigurationName pool) version machineConfigGetter)
    (ConfigurationName pool :: ConfigurationSource pool).
Proof.
  unfold isMachineConfigPoolConfigurationValid.
  destruct (ConfigurationName pool) as [|ch generated] eqn:Hname.
  - simpl. split; [discriminate|]. now intros [? _].
  - cbn [String.length Nat.eqb].
    destruct (ConfigurationSource pool) as [|src srcs] eqn:Hsrc.
    + simpl. split; [discriminate|]. now intros [_ [? _]].
    + cbn [length Nat.eqb]. rewrite checkConfigs_valid.
      split; [intros H; repeat split; [discriminate|discriminate|exact H]|].
      now intros [_ [_ H]].
Qed.

(** X19: the failures of [isMachineConfigPoolConfigurationValid] that do
    not depend on the configs.  A pool without the name of a generated config
    is refused with an error that names the pool, whatever else it holds; a
    pool with that name and no source is refused with another such error;
    and when the getter fails on the generated config, which is looked up
    first, its error is returned as it is. *)
Theorem isMachineConfigPoolConfigurationValid_failures {Condition : Type}
    (key version : string) (pool : MachineConfigPool Condition)
    (machineConfigGetter : string -> option MachineConfig * option error) :
  (ConfigurationName pool = "" ->
   isMachineConfigPoolConfigurationValid key pool version machineConfigGetter
   = Val (Some (errorString
       ("configuration for pool " +:+ PoolName pool +:+ " is empty")))) /\
  (ConfigurationName pool <> "" -> ConfigurationSource pool = [] ->
   isMachineConfigPoolConfigurationValid key pool version machineConfigGetter
   = Val (Some (errorString
       ("list of MachineConfigs that were used to generate configuration for pool "
          +:+ PoolName pool +:+ " is empty")))) /\
  (forall mc e,
     ConfigurationName pool <> "" -> ConfigurationSource pool <> [] ->
     machineConfigGetter (ConfigurationName pool) = (mc, Some e) ->
     isMachineConfigPoolConfigurationValid key pool version machineConfigGetter
     = Val (Some e)).
Proof.
  unfold isMachineConfigPoolConfigurationValid. split; [|split].
  - now intros ->.
  - intros Hname ->. destruct (ConfigurationName pool); [congruence|].
    reflexivity.
  - intros mc e Hname Hsrc Hget.
    destruct (ConfigurationName pool) as [|ch generated] eqn:Hn;
      [congruence|].
    destruct (ConfigurationSource pool); [congruence|].
    cbn [String.length length Nat.eqb checkConfigs]. rewrite Hget.
    now destruct mc.
Qed.

(** *** The statuses of the pools *)

Import Sync.

Lemma find_snoc {A} (f : A -> bool) (l : list A) (x : A) :
  List.find f (l ++ [x])
  = match List.find f l with
    | Some y => Some y
    | None => if f x then Some x else None
    end.
Proof.
  induction l as [|y l IH]; simpl; [reflexivity|].
  now destruct (f y).
Qed.

Lemma poolStatuses_lookup {Condition : Type}
    (valid : MachineConfigPool Condition -> outcome (option error))
    (status : MachineConfigPool Condition -> string)
    (pools : list (MachineConfigPool Condition)) :
  forall (ret m : gmap string string),
  poolStatuses valid status pools ret = Val m ->
  forall n, m !! n = match lastValid valid pools n with
                     | Some p => Some (status p)
                     | None => ret !! n
                     end.
Proof.
  unfold lastValid.
  induction pools as [|p pools IH]; intros ret m Hm n.
  - injection Hm as <-. reflexivity.
  - cbn [poolStatuses rev] in *. rewrite find_snoc.
    destruct (valid p) as [[e|]|msg]; [| |discriminate Hm].
    + rewrite (IH ret m Hm n). now destruct (List.find _ (rev pools)).
    + rewrite (IH _ m Hm n). destruct (List.find _ (rev pools));
        [reflexivity|].
      rewrite lookup_insert.
      destruct (String.eqb_spec (PoolName p) n) as [->|Hne].
      * now rewrite decide_True.
      * now rewrite decide_False.
Qed.

Lemma poolStatuses_returns {Condition : Type}
    (valid : MachineConfigPool Condition -> outcome (option error))
    (status : MachineConfigPool Condition -> string)
    (pools : list (MachineConfigPool Condition)) :
  noPanic valid pools ->
  forall ret, exists m, poolStatuses valid status pools ret = Val m.
Proof.
  induction 1 as [|p pools [res Hp] _ IH]; intros ret; simpl.
  - now exists ret.
  - rewrite Hp. destruct res; apply IH.
Qed.

(** X20: [allMachineConfigPoolStatus] asks the lister once.  An error of
    the listing is returned as it is.  Otherwise there is no error, whatever
    the pools: a pool whose configuration is not valid is left out, and
    under each name stands the status of the last pool of that name whose
    configuration is valid. *)
Theorem allMachineConfigPoolStatus_spec
    {Version PoolCondition PoolCondType : Type}
    (c : Sync.Cluster (Version := Version) (PoolCondition := PoolCondition)
           (PoolCondType := PoolCondType))
    (l : log) :
  let valid := fun p =>
    isMachineConfigPoolConfigurationValid
      (GeneratedByControllerVersionAnnotationKey c) p (controllerVersion c)
      (getMC c) in
  let status :=
    machineConfigPoolStatus (isPoolConditionTrue c)
      (MachineConfigPoolUpdated c) (MachineConfigPoolUpdating c) in
  (forall pools e,
     listPools c l = (pools, Some e) ->
     allMachineConfigPoolStatus c l = (Val (∅, Some e), l ++ [CListPools])) /\
  (forall pools,
     listPools c l = (pools, None) -> noPanic valid pools ->
     exists m,
       allMachineConfigPoolStatus c l = (Val (m, None), l ++ [CListPools]) /\
       forall n, m !! n = status <$> lastValid valid pools n).
Proof.
  intros valid status. unfold allMachineConfigPoolStatus, kbind, request.
  split.
  - intros pools e Hlist. now rewrite Hlist.
  - intros pools Hlist Hnp. rewrite Hlist. fold valid status.
    destruct (poolStatuses_returns valid status pools Hnp ∅) as [m Hm].
    exists m. rewrite Hm. split; [reflexivity|].
    intros n. rewrite (poolStatuses_lookup valid status pools ∅ m Hm n).
    destruct (lastValid valid pools n); [reflexivity|].
    simpl. apply lookup_empty.
Qed.

Lemma allMachineConfigPoolStatus_spec_witness :
  exists m,
    allMachineConfigPoolStatus (Cluster.cluster (None, None) None) []
    = (Val (m, None), [CListPools]) /\
    m !! "worker"
    = Some "all 3 nodes are at latest configuration rendered-worker" /\
    m !! "master" = None.
Proof.
  destruct (proj2 (allMachineConfigPoolStatus_spec
                     (Cluster.cluster (None, None) None) [])
              [worker; master] eq_refl) as (m & Hm & Hlookup).
  - repeat constructor; eexists; reflexivity.
  - exists m. split; [exact Hm|].
    split; [exact (Hlookup "worker")|exact (Hlookup "master")].
Defined.

(** *** Synchronising the ClusterOperator object *)

Section Syncing.
Context {Version PoolCondition PoolCondType : Type}
        (c : Sync.Cluster (Version := Version) (PoolCondition := PoolCondition)
               (PoolCondType := PoolCondType))
        (optr : Sync.Operator (Version := Version)).

Lemma fetch_no_match (l : log) (co : option CO) (e : error) :
  getCO c l (name optr) = (co, Some e) -> noKindMatch c e = true ->
  fetchClusterOperator c optr l = (Val (None, None), l ++ [CGet (name optr)]).
Proof.
  intros Hget Hno. unfold fetchClusterOperator, kbind, request.
  rewrite Hget. simpl. now rewrite Hno.
Qed.

Lemma fetch_error (l : log) (co : option CO) (e : error) :
  getCO c l (name optr) = (co, Some e) ->
  noKindMatch c e = false -> notFound c e = false ->
  fetchClusterOperator c optr l
  = (Val (None, Some e), l ++ [CGet (name optr)]).
Proof.
  intros Hget Hno Hnf. unfold fetchClusterOperator, kbind, request.
  rewrite Hget. simpl. now rewrite Hno, Hnf.
Qed.

Lemma fetch_found (l : log) (co : option CO) :
  getCO c l (name optr) = (co, None) ->
  fetchClusterOperator c optr l = (Val (co, None), l ++ [CGet (name optr)]).
Proof.
  intros Hget. unfold fetchClusterOperator, kbind, request.
  now rewrite Hget.
Qed.

Lemma fetch_create_failure (l : log) (co created : option CO) (e e' : error) :
  getCO c l (name optr) = (co, Some e) ->
  noKindMatch c e = false -> notFound c e = true ->
  createCO c (l ++ [CGet (name optr)])
    {| ObjectName := name optr; Conditions := []; Versions := [];
       RelatedObjects := []; ExtensionRaw := "" |} = (created, Some e') ->
  fetchClusterOperator c optr l
  = (Val (None, Some e'),
     l ++ [CGet (name optr);
           CCreate {| ObjectName := name optr; Conditions := [];
                      Versions := []; RelatedObjects := [];
                      ExtensionRaw := "" |}]).
Proof.
  intros Hget Hno Hnf Hcreate.
  unfold fetchClusterOperator, initializeClusterOperator, kbind, request.
  rewrite Hget. simpl. rewrite Hno, Hnf, Hcreate. simpl.
  now rewrite <- app_assoc.
Qed.

End Syncing.

(** X21: when the API server does not know the kind ClusterOperator (the
    get fails with a no-match error), each of [syncVersion],
    [syncAvailableStatus], [syncProgressingStatus] and [syncFailingStatus]
    returns no error and does nothing after the get: nothing is created,
    nothing is written. *)
Theorem sync_without_kind {Version PoolCondition PoolCondType : Type}
    (c : Sync.Cluster (Version := Version) (PoolCondition := PoolCondition)
           (PoolCondType := PoolCondType))
    (optr : Sync.Operator (Version := Version)) (ierr : option error)
    (l : log) (co : option CO) (e : error) :
  getCO c l (name optr) = (co, Some e) -> noKindMatch c e = true ->
  Forall (fun sync => sync l = (Val None, l ++ [CGet (name optr)]))
    (syncs c optr ierr).
Proof.
  intros Hget Hno. pose proof (fetch_no_match c optr l co e Hget Hno) as Hf.
  repeat constructor;
    unfold syncVersion, syncAvailableStatus, syncProgressingStatus,
      syncFailingStatus, kbind; now rewrite Hf.
Qed.

Lemma sync_without_kind_witness :
  Forall (fun sync => sync [] = (Val None, [CGet "machine-config"]))
    (syncs (Cluster.cluster (None, Some Cluster.noKind) None) Cluster.optr
       (Some Cluster.refused)).
Proof.
  exact (sync_without_kind (Cluster.cluster (None, Some Cluster.noKind) None)
           Cluster.optr (Some Cluster.refused) [] None Cluster.noKind
           eq_refl eq_refl).
Defined.

(** X22: an error of the get that is neither a no-match nor a not-found
    error is returned as it is by each of the four synchronisations, and
    nothing is created or written. *)
Theorem sync_get_error {Version PoolCondition PoolCondType : Type}
    (c : Sync.Cluster (Version := Version) (PoolCondition := PoolCondition)
           (PoolCondType := PoolCondType))
    (optr : Sync.Operator (Version := Version)) (ierr : option error)
    (l : log) (co : option CO) (e : error) :
  getCO c l (name optr) = (co, Some e) ->
  noKindMatch c e = false -> notFound c e = false ->
  Forall (fun sync => sync l = (Val (Some e), l ++ [CGet (name optr)]))
    (syncs c optr ierr).
Proof.
  intros Hget Hno Hnf.
  pose proof (fetch_error c optr l co e Hget Hno Hnf) as Hf.
  repeat constructor;
    unfold syncVersion, syncAvailableStatus, syncProgressingStatus,
      syncFailingStatus, kbind; now rewrite Hf.
Qed.

Lemma sync_get_error_witness :
  Forall (fun sync => sync [] = (Val (Some Cluster.refused),
                                 [CGet "machine-config"]))
    (syncs (Cluster.cluster (None, Some Cluster.refused) None) Cluster.optr
       None).
Proof.
  exact (sync_get_error (Cluster.cluster (None, Some Cluster.refused) None)
           Cluster.optr None [] None Cluster.refused eq_refl eq_refl eq_refl).
Defined.

(** X23: when the object is not found, it is created under the name of the
    operator with nothing in it; if the creation fails, each of the four
    synchronisations returns the error of the creation as it is and writes
    no status. *)
Theorem sync_create_failure {Version PoolCondition PoolCondType : Type}
    (c : Sync.Cluster (Version := Version) (PoolCondition := PoolCondition)
           (PoolCondType := PoolCondType))
    (optr : Sync.Operator (Version := Version)) (ierr : option error)
    (l : log) (co made : option CO) (e e' : error) :
  getCO c l (name optr) = (co, Some e) ->
  noKindMatch c e = false -> notFound c e = true ->
  createCO c (l ++ [CGet (name optr)]) (created (name optr))
    = (made, Some e') ->
  Forall (fun sync =>
            sync l = (Val (Some e'),
                      l ++ [CGet (name optr); CCreate (created (name optr))]))
    (syncs c optr ierr).
Proof.
  intros Hget Hno Hnf Hcreate.
  pose proof (fetch_create_failure c optr l co made e e' Hget Hno Hnf Hcreate)
    as Hf.
  repeat constructor;
    unfold syncVersion, syncAvailableStatus, syncProgressingStatus,
      syncFailingStatus, kbind; now rewrite Hf.
Qed.

Lemma sync_create_failure_witness :
  Forall (fun sync =>
            sync [] = (Val (Some Cluster.refused),
                       [CGet "machine-config";
                        CCreate (created "machine-config")]))
    (syncs (Cluster.cluster (None, Some Cluster.gone) None) Cluster.optr None).
Proof.
  exact (sync_create_failure (Cluster.cluster (None, Some Cluster.gone) None)
           Cluster.optr None [] None None Cluster.gone Cluster.refused
           eq_refl eq_refl eq_refl eq_refl).
Defined.

(** X24: while the object has both the progressing and the failing
    condition true, [syncVersion] keeps the versions it reports: it returns
    no error and writes nothing. *)
Theorem syncVersion_held {Version PoolCondition PoolCondType : Type}
    (c : Sync.Cluster (Version := Version) (PoolCondition := PoolCondition)
           (PoolCondType := PoolCondType))
    (optr : Sync.Operator (Version := Version)) (l : log) (co : CO) :
  getCO c l (name optr) = (Some co, None) ->
  IsStatusConditionTrue c (Conditions co) OperatorProgressing = true ->
  IsStatusConditionTrue c (Conditions co) OperatorFailing = true ->
  syncVersion c optr l = (Val None, l ++ [CGet (name optr)]).
Proof.
  intros Hget Hp Hf. unfold syncVersion, kbind.
  rewrite (fetch_found c optr l (Some co) Hget), Hp, Hf. reflexivity.
Qed.

Lemma syncVersion_held_witness :
  syncVersion (Cluster.cluster (Some Cluster.failingUpgrade, None) None)
    Cluster.optr []
  = (Val None, [CGet "machine-config"]).
Proof.
  exact (syncVersion_held
           (Cluster.cluster (Some Cluster.failingUpgrade, None) None)
           Cluster.optr [] Cluster.failingUpgrade eq_refl eq_refl eq_refl).
Defined.

Lemma setExtensionRaw_same {Version : Type} (co : ClusterOperator Version) :
  setExtensionRaw co (ExtensionRaw co) = co.
Proof. now destruct co. Qed.

(** X25: [setMachineConfigPoolStatuses] never fails a synchronisation and
    touches nothing but the raw extension of the status: when the statuses
    of the pools are computed and marshalled, the extension is the
    marshalled text; when the listing of the pools or the marshalling fails,
    the object is left as it was. *)
Theorem setMachineConfigPoolStatuses_spec
    {Version PoolCondition PoolCondType : Type}
    (c : Sync.Cluster (Version := Version) (PoolCondition := PoolCondition)
           (PoolCondType := PoolCondType))
    (co : CO) (l l' : log) (statuses : gmap string string)
    (err : option error) :
  allMachineConfigPoolStatus c l = (Val (statuses, err), l') ->
  setMachineConfigPoolStatuses c co l
  = (Val (match err, jsonMarshal c statuses with
          | None, (raw, None) => setExtensionRaw co raw
          | _, _ => co
          end), l').
Proof.
  intros Hall. unfold setMachineConfigPoolStatuses, kbind. rewrite Hall.
  destruct err as [e|]; [reflexivity|].
  now destruct (jsonMarshal c statuses) as [raw [e|]].
Qed.

Lemma setMachineConfigPoolStatuses_spec_witness :
  setMachineConfigPoolStatuses
    (Cluster.cluster (None, None) (Some Cluster.refused)) Cluster.bare []
  = (Val Cluster.bare, [CListPools]).
Proof.
  exact (setMachineConfigPoolStatuses_spec
           (Cluster.cluster (None, None) (Some Cluster.refused)) Cluster.bare
           [] [CListPools] ∅ (Some Cluster.refused) eq_refl).
Defined.

(** X26: [updateStatus] reads the status of the condition it is about to
    set without looking whether the object has such a condition.  On an
    object that lacks the available, the progressing or the failing
    condition, the synchronisation of that condition panics right after the
    get, and nothing is written. *)
Theorem sync_missing_condition_panics
    {Version PoolCondition PoolCondType : Type}
    (c : Sync.Cluster (Version := Version) (PoolCondition := PoolCondition)
           (PoolCondType := PoolCondType))
    (optr : Sync.Operator (Version := Version)) (l : log) (co : CO) :
  getCO c l (name optr) = (Some co, None) ->
  (FindStatusCondition c (Conditions co) OperatorAvailable = None ->
   syncAvailableStatus c optr l
   = (Panic "nil pointer dereference", l ++ [CGet (name optr)])) /\
  (FindStatusCondition c (Conditions co) OperatorProgressing = None ->
   syncProgressingStatus c optr l
   = (Panic "nil pointer dereference", l ++ [CGet (name optr)])) /\
  (FindStatusCondition c (Conditions co) OperatorFailing = None ->
   syncFailingStatus c optr None l
   = (Panic "nil pointer dereference", l ++ [CGet (name optr)])).
Proof.
  intros Hget. pose proof (fetch_found c optr l (Some co) Hget) as Hf.
  repeat split; intros Hfind;
    unfold syncAvailableStatus, syncProgressingStatus, syncFailingStatus,
      kbind; rewrite Hf; unfold updateStatus.
  - destruct (IsStatusConditionTrue c (Conditions co) OperatorFailing);
      simpl; now rewrite Hfind.
  - destruct (vStore_Equal optr (Versions co)), (inClusterBringup optr);
      simpl; now rewrite Hfind.
  - simpl. now rewrite Hfind.
Qed.

Lemma sync_missing_condition_panics_witness :
  syncAvailableStatus (Cluster.cluster (Some Cluster.bare, None) None)
    Cluster.optr []
  = (Panic "nil pointer dereference", [CGet "machine-config"]).
Proof.
  exact (proj1 (sync_missing_condition_panics
                  (Cluster.cluster (Some Cluster.bare, None) None)
                  Cluster.optr [] Cluster.bare eq_refl) eq_refl).
Defined.
